(** * The X token extractor ([get_config_file.js]), embedded and verified

    The repository ships two console scripts that read [document.cookie],
    assemble a credential object and save it as [config.json]:

    - the _strict_ script (lines 17-115) captures [ct0] and [auth_token]
      and refuses to continue when either is missing;
    - the _tolerant_ script (lines 130-216) captures [ct0] only.

    JavaScript strings are sequences of UTF-16 code units, so a string is
    a list of code units here.  The scripts talk to the console, to the
    DOM (the download) and to the clipboard; these appear as an event
    trace.  The cookie store and the clipboard are inputs of a run;
    reading [document.cookie] is taken to succeed. *)

From Stdlib Require Import List NArith String Ascii Bool Lia.
Import ListNotations.

(** ** JavaScript strings *)

Definition char16 := N.
Definition jsstring := list char16.

(** A source literal (all literals of the scripts that matter are ASCII). *)
Definition lit (s : string) : jsstring :=
  List.map N_of_ascii (list_ascii_of_string s).

Fixpoint str_eqb (a b : jsstring) : bool :=
  match a, b with
  | [], [] => true
  | x :: a', y :: b' => N.eqb x y && str_eqb a' b'
  | _, _ => false
  end.

(** [WhiteSpace] and [LineTerminator] of ECMA-262, the code points that
    [String.prototype.trim] strips.  All of them are in the BMP. *)
Definition is_white_space (c : char16) : bool :=
  match c with
  | 9%N | 10%N | 11%N | 12%N | 13%N | 32%N | 160%N => true
  | 5760%N => true                               (* U+1680 *)
  | 8232%N | 8233%N => true                      (* U+2028, U+2029 *)
  | 8239%N | 8287%N | 12288%N | 65279%N => true  (* 202F 205F 3000 FEFF *)
  | _ => N.leb 8192 c && N.leb c 8202            (* U+2000 .. U+200A *)
  end.

Fixpoint trimStart (s : jsstring) : jsstring :=
  match s with
  | [] => []
  | c :: s' => if is_white_space c then trimStart s' else s
  end.

Definition trimEnd (s : jsstring) : jsstring := rev (trimStart (rev s)).

(** [s.trim()] *)
Definition trim (s : jsstring) : jsstring := trimEnd (trimStart s).

(** [s.split(sep)] for a separator of one code unit, which is what both
    call sites pass ([";"] and ["="]).  The result is never empty:
    [("").split(";")] is [[""]]. *)
Fixpoint split (sep : char16) (s : jsstring) : list jsstring :=
  match s with
  | [] => [[]]
  | c :: s' =>
      if N.eqb c sep then [] :: split sep s'
      else match split sep s' with
           | [] => [[c]]
           | p :: ps => (c :: p) :: ps
           end
  end.

(** [s.substring(0, n)] *)
Definition substring0 (n : nat) (s : jsstring) : jsstring := firstn n s.

Definition semicolon : char16 := Eval cbv in N_of_ascii ";".
Definition equals_sign : char16 := Eval cbv in N_of_ascii "=".

(** ** JavaScript values and objects *)

(** The values the scripts handle: a string, or [undefined] (the second
    element of a destructured array that has only one, or a property that
    was never set). *)
Inductive value : Type :=
| Undefined
| Str (s : jsstring).

(** [!!v] *)
Definition truthy (v : value) : bool :=
  match v with
  | Undefined => false
  | Str [] => false
  | Str (_ :: _) => true
  end.

(** [v === "literal"] *)
Definition strict_eq (v : value) (s : jsstring) : bool :=
  match v with
  | Undefined => false
  | Str x => str_eqb x s
  end.

(** [arr[i]]: out of range reads give [undefined]. *)
Definition element (arr : list jsstring) (i : nat) : value :=
  match nth_error arr i with
  | Some s => Str s
  | None => Undefined
  end.

(** A plain object with string keys.  Property order is insertion order,
    which [JSON.stringify] follows, so the object is an association list
    in which a key occurs at most once. *)
Definition object := list (jsstring * value).

(** [o.k] *)
Fixpoint get (k : jsstring) (o : object) : value :=
  match o with
  | [] => Undefined
  | (k', v) :: o' => if str_eqb k' k then v else get k o'
  end.

(** [o.k = v]: an existing property keeps its place, a new one goes last. *)
Fixpoint set (k : jsstring) (v : value) (o : object) : object :=
  match o with
  | [] => [(k, v)]
  | (k', v') :: o' =>
      if str_eqb k' k then (k', v) :: o' else (k', v') :: set k v o'
  end.

(** [k in o] *)
Fixpoint has (k : jsstring) (o : object) : bool :=
  match o with
  | [] => false
  | (k', _) :: o' => str_eqb k' k || has k o'
  end.

(** ** [JSON.stringify(o, null, 2)] *)

Definition hex_digit (d : N) : char16 :=
  if N.ltb d 10 then (48 + d)%N else (87 + d)%N.

(** [UnicodeEscape]: a backslash, [u] and four lowercase hex digits. *)
Definition unicode_escape (c : char16) : jsstring :=
  [92%N; 117%N;
   hex_digit (N.land (N.shiftr c 12) 15); hex_digit (N.land (N.shiftr c 8) 15);
   hex_digit (N.land (N.shiftr c 4) 15); hex_digit (N.land c 15)].

Definition is_leading_surrogate (c : char16) : bool :=
  N.leb 55296 c && N.leb c 56319.
Definition is_trailing_surrogate (c : char16) : bool :=
  N.leb 56320 c && N.leb c 57343.

(** What [QuoteJSONString] emits for one code unit that is not part of a
    surrogate pair. *)
Definition quote_unit (c : char16) : jsstring :=
  match c with
  | 8%N => lit "\b"
  | 9%N => lit "\t"
  | 10%N => lit "\n"
  | 12%N => lit "\f"
  | 13%N => lit "\r"
  | 34%N => [92%N; 34%N]
  | 92%N => lit "\\"
  | _ =>
      if N.ltb c 32 || is_leading_surrogate c || is_trailing_surrogate c
      then unicode_escape c
      else [c]
  end.

Fixpoint quote_units (s : jsstring) : jsstring :=
  match s with
  | [] => []
  | c :: s' =>
      if is_leading_surrogate c then
        match s' with
        | d :: s'' =>
            if is_trailing_surrogate d then c :: d :: quote_units s''
            else quote_unit c ++ quote_units s'
        | [] => quote_unit c
        end
      else quote_unit c ++ quote_units s'
  end.

(** [QuoteJSONString] *)
Definition quoteJSONString (s : jsstring) : jsstring :=
  34%N :: quote_units s ++ [34%N].

(** The members of [SerializeJSONObject] with a two-space gap; a property
    whose value is [undefined] is left out. *)
Fixpoint json_members (o : object) : list jsstring :=
  match o with
  | [] => []
  | (k, Undefined) :: o' => json_members o'
  | (k, Str s) :: o' =>
      (quoteJSONString k ++ lit ": " ++ quoteJSONString s) :: json_members o'
  end.

Fixpoint join (sep : jsstring) (parts : list jsstring) : jsstring :=
  match parts with
  | [] => []
  | [p] => p
  | p :: ps => p ++ sep ++ join sep ps
  end.

Definition newline : char16 := 10%N.

Definition JSON_stringify (o : object) : jsstring :=
  match json_members o with
  | [] => lit "{}"
  | ms => lit "{" ++ newline :: lit "  "
          ++ join (lit "," ++ newline :: lit "  ") ms
          ++ newline :: lit "}"
  end.

(** ** Effects: the console, the download, the clipboard *)

(** The one exception the scripts can raise themselves: calling
    [substring] on [undefined]. *)
Inductive exn : Type := TypeError.

(** The lines the scripts print, with the data they interpolate. *)
Inductive message : Type :=
| Banner                      (* "X Token Extractor v1.0" *)
| Rule                        (* "================================" *)
| FoundCt0 (shown : jsstring) (* "Found ct0/csrf_token:", shown *)
| FoundAuthToken (shown : jsstring) (* "Found auth_token:", shown *)
| FoundBearer                 (* "Found bearer_token" *)
| UsingDefaultBearer          (* "Using default bearer_token" *)
| NoCt0Cookie                 (* "Could not find ct0 cookie!" *)
| NoAuthTokenCookie           (* "Could not find auth_token cookie!" *)
| HintLoggedIn                (* "Make sure you are logged in to X" *)
| HintRefresh                 (* "Try refreshing the page and running ..." *)
| Extracted (foundTokens : N) (* "Successfully extracted ${foundTokens} tokens:" *)
| FieldOk (field : jsstring)  (* "- <field>: ok" *)
| GeneratedHeader             (* "Generated config.json:" *)
| Text (s : jsstring)         (* a string printed as it is *)
| Downloaded                  (* "config.json downloaded successfully!" *)
| NextSteps                   (* "Next steps:" and its three lines *)
| NextStep (n : N)
| CopiedToClipboard           (* "Config also copied to clipboard!" *)
| CouldNotCopy                (* "Could not copy to clipboard, but download worked!" *)
| ExtractionFailed (error : exn) (* "Error extracting tokens:", error *)
| Troubleshooting             (* "Troubleshooting:" and its four lines *)
| Tip (n : N).

(** The file handed to the browser by the hidden anchor: the Blob's
    content and type, and the anchor's [download] attribute. *)
Record file : Type := File {
  file_name : jsstring;
  file_type : jsstring;
  file_content : jsstring
}.

Inductive event : Type :=
| Log (m : message)               (* console.log *)
| Error (m : message)             (* console.error *)
| Save (f : file)                 (* a.click() on the download anchor *)
| ClipboardWrite (text : jsstring) (* navigator.clipboard.writeText(text) *).

Definition trace := list event.

(** The promise [writeText] returns settles one way or the other. *)
Inductive settlement : Type := Fulfilled | Rejected.

(** [navigator.clipboard]: absent, or an object whose [writeText] is
    absent or a function from the text to the settlement of its promise. *)
Record clipboard : Type := Clipboard {
  writeText : option (jsstring -> settlement)
}.

(** What a run is given: the cookie string and the navigator's clipboard. *)
Record browser : Type := Browser {
  document_cookie : jsstring;
  navigator_clipboard : option clipboard
}.

(** How a block ends: it falls through with a result, it executes
    [return], or it throws. *)
Inductive completion (A : Type) : Type :=
| Normal (a : A)
| Return
| Throw (e : exn).
Arguments Normal {A} a.
Arguments Return {A}.
Arguments Throw {A} e.

(** A computation: the events it emits and how it ends. *)
Definition M (A : Type) : Type := (trace * completion A)%type.

Definition ret {A} (a : A) : M A := ([], Normal a).

Definition bind {A B} (m : M A) (f : A -> M B) : M B :=
  match m with
  | (t, Normal a) => let (t', r) := f a in (t ++ t', r)
  | (t, Return) => (t, Return)
  | (t, Throw e) => (t, Throw e)
  end.

Definition emit (e : event) : M unit := ([e], Normal tt).
Definition console_log (m : message) : M unit := emit (Log m).
Definition console_error (m : message) : M unit := emit (Error m).
Definition return_ {A} : M A := ([], Return).
Definition throw {A} (e : exn) : M A := ([], Throw e).

(** [try { m } catch (error) { h error }] inside a function body: a
    [return] in [m] still leaves the function. *)
Definition try_catch {A} (m : M A) (h : exn -> M A) : M A :=
  match m with
  | (t, Throw e) => let (t', r) := h e in (t ++ t', r)
  | other => other
  end.

Declare Scope js_scope.
Delimit Scope js_scope with js.
Notation "x <- m ;; k" := (bind m (fun x => k))
  (at level 61, m at next level, right associativity) : js_scope.
Notation "m ;; k" := (bind m (fun _ => k))
  (at level 61, right associativity) : js_scope.
Open Scope js_scope.

(** [arr.forEach(callback)], the callback's captured variables passed as
    state. *)
Fixpoint forEach {S : Type} (callback : jsstring -> S -> M S)
    (arr : list jsstring) (st : S) : M S :=
  match arr with
  | [] => ret st
  | x :: xs => st' <- callback x st ;; forEach callback xs st'
  end.

(** [v.substring(0, 20) + "..."], which throws when [v] is [undefined]. *)
Definition preview (v : value) : M jsstring :=
  match v with
  | Undefined => throw TypeError
  | Str s => ret (substring0 20 s ++ lit "...")
  end.

(** ** The two scripts *)

Definition ct0 : jsstring := Eval cbv in lit "ct0".
Definition csrf_token : jsstring := Eval cbv in lit "csrf_token".
Definition auth_token : jsstring := Eval cbv in lit "auth_token".
Definition bearer_token : jsstring := Eval cbv in lit "bearer_token".

(** The web client's public bearer token (lines 46 and 155). *)
Definition BEARER : jsstring := Eval cbv in
  lit "AAAAAAAAAAAAAAAAAAAAAMLheAAAAAAA0%2BuSeid%2BULvsea4JtiGRiSDyJug%3D".

Definition config_json : jsstring := Eval cbv in lit "config.json".
Definition application_json : jsstring := Eval cbv in lit "application/json".

(** The captured variables of the [forEach] callback: [tokens] and
    [foundTokens]. *)
Definition vars : Type := (object * N)%type.

(** Lines 77-86 and 178-187: a Blob of the text, an object URL, a hidden
    anchor with [download = "config.json"], a click, and the clean-up.
    The DOM calls are taken to succeed; what the browser receives is the
    file. *)
Definition download (config : jsstring) : M unit :=
  emit (Save (File config_json application_json config)).

(** Lines 95-104 and 196-205.  [writeText] hands back a promise and
    reports a failure by rejecting it.  The [then] and [catch] callbacks
    run in a later microtask; the log line they will print is the
    result. *)
Definition copy_to_clipboard (c : option clipboard) (config : jsstring)
  : M trace :=
  match c with
  | Some (Clipboard (Some write)) =>
      emit (ClipboardWrite config) ;;
      ret (match write config with
           | Fulfilled => [Log CopiedToClipboard]
           | Rejected => [Log CouldNotCopy]
           end)
  | _ => ret []
  end.

(** Lines 88-92 and 189-193. *)
Definition next_steps : M unit :=
  console_log Downloaded ;;
  console_log NextSteps ;;
  console_log (NextStep 1) ;;
  console_log (NextStep 2) ;;
  console_log (NextStep 3).

(** Lines 105-114 and 206-215. *)
Definition handler (error : exn) : M trace :=
  console_error (ExtractionFailed error) ;;
  console_error Troubleshooting ;;
  console_error (Tip 1) ;;
  console_error (Tip 2) ;;
  console_error (Tip 3) ;;
  console_error (Tip 4) ;;
  ret [].

Module Strict.

(** Lines 30-42. *)
Definition callback (cookie : jsstring) (st : vars) : M vars :=
  let '(tokens, foundTokens) := st in
  let parts := split equals_sign (trim cookie) in
  let name := element parts 0 in
  let value := element parts 1 in
  if strict_eq name ct0 then
    let tokens := set ct0 value tokens in
    let tokens := set csrf_token value tokens in
    let foundTokens := (foundTokens + 2)%N in
    shown <- preview value ;;
    console_log (FoundCt0 shown) ;;
    ret (tokens, foundTokens)
  else if strict_eq name auth_token then
    let tokens := set auth_token value tokens in
    let foundTokens := (foundTokens + 1)%N in
    shown <- preview value ;;
    console_log (FoundAuthToken shown) ;;
    ret (tokens, foundTokens)
  else ret (tokens, foundTokens).

(** Lines 25-63: the object is built and validated. *)
Definition collect (cookie : jsstring) : M vars :=
  let tokens : object := [] in
  let foundTokens := 0%N in
  let cookies := split semicolon cookie in
  st <- forEach callback cookies (tokens, foundTokens) ;;
  let '(tokens, foundTokens) := st in
  let tokens := set bearer_token (Str BEARER) tokens in
  let foundTokens := (foundTokens + 1)%N in
  console_log FoundBearer ;;
  if negb (truthy (get ct0 tokens)) then
    console_error NoCt0Cookie ;;
    console_error HintLoggedIn ;;
    console_error HintRefresh ;;
    return_
  else if negb (truthy (get auth_token tokens)) then
    console_error NoAuthTokenCookie ;;
    console_error HintLoggedIn ;;
    console_error HintRefresh ;;
    return_
  else ret (tokens, foundTokens).

(** Lines 65-104: the object is printed, saved and copied. *)
Definition deliver (c : option clipboard) (st : vars) : M trace :=
  let '(tokens, foundTokens) := st in
  console_log (Extracted foundTokens) ;;
  console_log (FieldOk bearer_token) ;;
  console_log (FieldOk csrf_token) ;;
  console_log (FieldOk ct0) ;;
  console_log (FieldOk auth_token) ;;
  let config := JSON_stringify tokens in
  console_log GeneratedHeader ;;
  console_log (Text config) ;;
  download config ;;
  next_steps ;;
  copy_to_clipboard c config.

(** Lines 17-115. *)
Definition script (w : browser) : M trace :=
  console_log Banner ;;
  console_log Rule ;;
  try_catch
    (st <- collect (document_cookie w) ;;
     deliver (navigator_clipboard w) st)
    handler.

End Strict.

Module Tolerant.

(** Lines 143-151. *)
Definition callback (cookie : jsstring) (st : vars) : M vars :=
  let '(tokens, foundTokens) := st in
  let parts := split equals_sign (trim cookie) in
  let name := element parts 0 in
  let value := element parts 1 in
  if strict_eq name ct0 then
    let tokens := set ct0 value tokens in
    let tokens := set csrf_token value tokens in
    let foundTokens := (foundTokens + 2)%N in
    shown <- preview value ;;
    console_log (FoundCt0 shown) ;;
    ret (tokens, foundTokens)
  else ret (tokens, foundTokens).

(** Lines 138-165. *)
Definition collect (cookie : jsstring) : M vars :=
  let tokens : object := [] in
  let foundTokens := 0%N in
  let cookies := split semicolon cookie in
  st <- forEach callback cookies (tokens, foundTokens) ;;
  let '(tokens, foundTokens) := st in
  let tokens := set bearer_token (Str BEARER) tokens in
  let foundTokens := (foundTokens + 1)%N in
  console_log UsingDefaultBearer ;;
  if negb (truthy (get ct0 tokens)) then
    console_error NoCt0Cookie ;;
    console_error HintLoggedIn ;;
    console_error HintRefresh ;;
    return_
  else ret (tokens, foundTokens).

(** Lines 167-205. *)
Definition deliver (c : option clipboard) (st : vars) : M trace :=
  let '(tokens, foundTokens) := st in
  console_log (Extracted foundTokens) ;;
  console_log (FieldOk bearer_token) ;;
  console_log (FieldOk csrf_token) ;;
  console_log (FieldOk ct0) ;;
  let config := JSON_stringify tokens in
  console_log GeneratedHeader ;;
  console_log (Text config) ;;
  download config ;;
  next_steps ;;
  copy_to_clipboard c config.

(** Lines 130-216. *)
Definition script (w : browser) : M trace :=
  console_log Banner ;;
  console_log Rule ;;
  try_catch
    (st <- collect (document_cookie w) ;;
     deliver (navigator_clipboard w) st)
    handler.

End Tolerant.

(** ** Running a script *)

Inductive variant : Type := Strict_variant | Tolerant_variant.

Definition callback (v : variant) : jsstring -> vars -> M vars :=
  match v with
  | Strict_variant => Strict.callback
  | Tolerant_variant => Tolerant.callback
  end.

Definition collect (v : variant) : jsstring -> M vars :=
  match v with
  | Strict_variant => Strict.collect
  | Tolerant_variant => Tolerant.collect
  end.

Definition script (v : variant) : browser -> M trace :=
  match v with
  | Strict_variant => Strict.script
  | Tolerant_variant => Tolerant.script
  end.

(** Everything a run does, in order: the script's own events, then the
    line of the clipboard promise's callback, if one was registered. *)
Definition run (v : variant) (w : browser) : trace :=
  match script v w with
  | (t, Normal pending) => t ++ pending
  | (t, _) => t
  end.

(** The object handed to [JSON.stringify], when the script gets there. *)
Definition bundle (v : variant) (cookie : jsstring) : option object :=
  match collect v cookie with
  | (_, Normal (tokens, _)) => Some tokens
  | _ => None
  end.

(** The observables of a run. *)
Definition saved (t : trace) : list file :=
  flat_map (fun e => match e with Save f => [f] | _ => [] end) t.

Definition errors (t : trace) : list message :=
  flat_map (fun e => match e with Error m => [m] | _ => [] end) t.

Definition clipboard_texts (t : trace) : list jsstring :=
  flat_map (fun e => match e with ClipboardWrite x => [x] | _ => [] end) t.

(** A browser without a clipboard. *)
Definition no_clipboard (cookie : jsstring) : browser :=
  Browser cookie None.

(** ** How the callback reads one cookie *)

(** [name] and [value] of [const [name, value] = cookie.trim().split("=")]. *)
Definition cookie_name (cookie : jsstring) : value :=
  element (split equals_sign (trim cookie)) 0.

Definition cookie_value (cookie : jsstring) : value :=
  element (split equals_sign (trim cookie)) 1.

(** ** The vocabulary of the specification *)

(** The entries of the cookie string. *)
Definition entries (cookie : jsstring) : list jsstring :=
  split semicolon cookie.

(** An entry that reads [name=v] once the blanks around it are gone. *)
Definition is_entry (name v entry : jsstring) : Prop :=
  trim entry = name ++ equals_sign :: v.

(** The cookie string contains a [name=v] entry. *)
Definition has_entry (name v cookie : jsstring) : Prop :=
  exists e, In e (entries cookie) /\ is_entry name v e.

(** The value of an entry as the specification reads it: the entry is cut
    at its first [=] only, and the value is all that follows. *)
Fixpoint after_first (sep : char16) (s : jsstring) : value :=
  match s with
  | [] => Undefined
  | c :: s' => if N.eqb c sep then Str s' else after_first sep s'
  end.

Definition spec_cookie_value (cookie : jsstring) : value :=
  after_first equals_sign (trim cookie).

Definition captures_auth (v : variant) : bool :=
  match v with
  | Strict_variant => true
  | Tolerant_variant => false
  end.

(** The variant stores cookies of this name. *)
Definition captured (v : variant) (name : jsstring) : Prop :=
  name = ct0 \/ (v = Strict_variant /\ name = auth_token).

(** No entry is the bare word [ct0] or, where the variant captures it,
    the bare word [auth_token]: the entries on which [value.substring]
    would be called on [undefined]. *)
Definition no_bare_names (v : variant) (cookie : jsstring) : Prop :=
  forall e, In e (entries cookie) ->
    trim e <> ct0 /\ (captures_auth v = true -> trim e <> auth_token).

Definition missing_ct0_errors : list message :=
  [NoCt0Cookie; HintLoggedIn; HintRefresh].

Definition missing_auth_token_errors : list message :=
  [NoAuthTokenCookie; HintLoggedIn; HintRefresh].

Definition extraction_failed_errors : list message :=
  [ExtractionFailed TypeError; Troubleshooting; Tip 1; Tip 2; Tip 3; Tip 4].

(** ** Auxiliary definitions for the proofs *)

(** The loop only writes to the console, and never an error. *)
Definition only_logs (t : trace) : Prop :=
  Forall (fun e => exists m, e = Log m) t.

Definition bearer_line (v : variant) : message :=
  match v with
  | Strict_variant => FoundBearer
  | Tolerant_variant => UsingDefaultBearer
  end.

(** The console lines between the validation and the download. *)
Definition announce (v : variant) (n : N) : trace :=
  [Log (Extracted n); Log (FieldOk bearer_token); Log (FieldOk csrf_token);
   Log (FieldOk ct0)]
  ++ (if captures_auth v then [Log (FieldOk auth_token)] else []).

(** What the script does with the text once the object is validated, up
    to the clipboard. *)
Definition delivery (v : variant) (n : N) (config : jsstring) : trace :=
  announce v n
  ++ [Log GeneratedHeader; Log (Text config);
      Save (File config_json application_json config);
      Log Downloaded; Log NextSteps;
      Log (NextStep 1); Log (NextStep 2); Log (NextStep 3)].

(** What the clipboard adds to a run. *)
Definition clipboard_events (c : option clipboard) (config : jsstring)
  : trace :=
  match c with
  | Some (Clipboard (Some write)) =>
      [ClipboardWrite config;
       Log (match write config with
            | Fulfilled => CopiedToClipboard
            | Rejected => CouldNotCopy
            end)]
  | _ => []
  end.

(** A string between double quotes, nothing escaped. *)
Definition quoted (s : jsstring) : jsstring := 34%N :: s ++ [34%N].

(** The text of [config.json] for the cookies
    [ct0=abc123; auth_token=xyz789], line by line. *)
Definition example_config : jsstring :=
  lit "{" ++ [newline]
  ++ lit "  " ++ quoted (lit "ct0") ++ lit ": " ++ quoted (lit "abc123")
  ++ lit "," ++ [newline]
  ++ lit "  " ++ quoted (lit "csrf_token") ++ lit ": "
  ++ quoted (lit "abc123") ++ lit "," ++ [newline]
  ++ lit "  " ++ quoted (lit "auth_token") ++ lit ": "
  ++ quoted (lit "xyz789") ++ lit "," ++ [newline]
  ++ lit "  " ++ quoted (lit "bearer_token") ++ lit ": " ++ quoted BEARER
  ++ [newline]
  ++ lit "}".

(** ** Further vocabulary *)

(** The callback takes the cookie for one of this name. *)
Definition named (name cookie : jsstring) : bool :=
  strict_eq (cookie_name cookie) name.

(** How many of the cookies the callback takes for one of this name. *)
Definition count_named (name : jsstring) (xs : list jsstring) : N :=
  N.of_nat (List.length (filter (named name) xs)).

(** The cookies on which the callback of the variant does anything. *)
Definition relevant (v : variant) (cookie : jsstring) : bool :=
  named ct0 cookie || (captures_auth v && named auth_token cookie).

(** What [foundTokens] is when the object passes the validation: two for
    every [ct0] cookie, one for every [auth_token] cookie the variant
    captures, and one for the bearer token. *)
Definition reported_count (v : variant) (cookie : jsstring) : N :=
  (2 * count_named ct0 (entries cookie)
   + (if captures_auth v then count_named auth_token (entries cookie) else 0)
   + 1)%N.

(** The shapes [tokens] can have during the loop: the pair [ct0],
    [csrf_token] when a [ct0] cookie was seen, the property [auth_token]
    when one was captured, in the order in which the first of each was
    seen. *)
Definition layout (auth_first : bool) (a y : option jsstring) : object :=
  let pair := match a with
              | Some x => [(ct0, Str x); (csrf_token, Str x)]
              | None => []
              end in
  let auth := match y with
              | Some z => [(auth_token, Str z)]
              | None => []
              end in
  if auth_first then auth ++ pair else pair ++ auth.

(** Of the cookies the strict callback acts on, the first is an
    [auth_token] cookie: it is met before any [ct0] cookie. *)
Fixpoint auth_comes_first (xs : list jsstring) : bool :=
  match xs with
  | [] => false
  | x :: xs' =>
      if named ct0 x then false
      else if named auth_token x then true
      else auth_comes_first xs'
  end.

(** Whether [auth_token] stands before the pair once the loop has gone
    over [xs], starting from [layout auth_first a y]: properties that are
    there keep their places, and the others are appended as their cookies
    are met. *)
Definition order_after (auth_first : bool) (a y : option jsstring)
    (xs : list jsstring) : bool :=
  match a, y with
  | None, None => auth_comes_first xs
  | Some _, None => false
  | None, Some _ => true
  | Some _, Some _ => auth_first
  end.

(** A code unit that [QuoteJSONString] copies as it is, whatever is
    around it: not a control character, not the double quote, not the
    backslash, not a surrogate. *)
Definition plain (c : char16) : bool :=
  negb (N.ltb c 32) && negb (N.eqb c 34) && negb (N.eqb c 92)
  && negb (is_leading_surrogate c) && negb (is_trailing_surrogate c).

(** The text of [config.json] of the tolerant script for a [ct0] value
    that is printed as it is, line by line. *)
Definition tolerant_config (x : jsstring) : jsstring :=
  lit "{" ++ [newline]
  ++ lit "  " ++ quoted ct0 ++ lit ": " ++ quoted x ++ lit "," ++ [newline]
  ++ lit "  " ++ quoted csrf_token ++ lit ": " ++ quoted x
  ++ lit "," ++ [newline]
  ++ lit "  " ++ quoted bearer_token ++ lit ": " ++ quoted BEARER
  ++ [newline]
  ++ lit "}".

(** A Found line of the console shows this much of a value. *)
Definition shown_of (x : jsstring) : jsstring :=
  substring0 20 x ++ lit "...".

Ltac distinct_keys :=
  unfold ct0, csrf_token, auth_token, bearer_token; discriminate.

Ltac step_cases c v :=
  let Hc := fresh "Hct0" in
  let Ha := fresh "Hauth" in
  let Hv := fresh "Hval" in
  destruct (strict_eq (cookie_name c) ct0) eqn:Hc;
  [|destruct (captures_auth v) eqn:?; simpl andb;
    [destruct (strict_eq (cookie_name c) auth_token) eqn:Ha|]];
  try destruct (cookie_value c) eqn:Hv.

(** * Properties *)

(** ** Strings *)

Lemma str_eqb_eq (a b : jsstring) : str_eqb a b = true <-> a = b.
Proof.
  revert b; induction a as [|x a IH]; intros [|y b]; simpl;
    try (split; [discriminate | discriminate]); try tauto.
  rewrite andb_true_iff, N.eqb_eq, IH.
  split; [intros [-> ->]; reflexivity | intros H; inversion H; auto].
Qed.

Lemma str_eqb_refl (a : jsstring) : str_eqb a a = true.
Proof. apply str_eqb_eq; reflexivity. Qed.

Lemma str_eqb_neq (a b : jsstring) : a <> b -> str_eqb a b = false.
Proof.
  intros H; destruct (str_eqb a b) eqn:E; [|reflexivity].
  apply str_eqb_eq in E; contradiction.
Qed.

Lemma strict_eq_true (v : value) (s : jsstring) :
  strict_eq v s = true <-> v = Str s.
Proof.
  destruct v as [|x]; simpl.
  - split; discriminate.
  - rewrite str_eqb_eq; split; [intros ->; reflexivity | congruence].
Qed.

Lemma split_not_nil (sep : char16) (s : jsstring) : split sep s <> [].
Proof.
  destruct s as [|c s]; simpl; [discriminate|].
  destruct (N.eqb c sep); [discriminate|].
  destruct (split sep s); discriminate.
Qed.

(** The first piece holds no separator; it is the whole string, or the
    separator follows it and the other pieces split the rest. *)
Lemma split_inv (sep : char16) (s p : jsstring) (ps : list jsstring) :
  split sep s = p :: ps ->
  ~ In sep p /\
  ((ps = [] /\ s = p) \/ (exists y, s = p ++ sep :: y /\ ps = split sep y)).
Proof.
  revert p ps; induction s as [|c s IH]; intros p ps; simpl.
  - intros H; inversion H; subst; split; [intros []|left; auto].
  - destruct (N.eqb c sep) eqn:E.
    + apply N.eqb_eq in E; subst c.
      intros H; inversion H; subst.
      split; [intros []|right; exists s; auto].
    + apply N.eqb_neq in E.
      destruct (split sep s) as [|q qs] eqn:Es.
      * exfalso; exact (split_not_nil _ _ Es).
      * intros H; injection H as <- <-.
        destruct (IH q qs eq_refl) as [Hq Hs].
        split.
        -- intros [Hc|Hc]; [congruence | contradiction].
        -- destruct Hs as [[-> ->]|[y [-> ->]]];
             [left; auto | right; exists y; auto].
Qed.

Lemma split_app (sep : char16) (a b : jsstring) :
  ~ In sep a -> split sep (a ++ sep :: b) = a :: split sep b.
Proof.
  induction a as [|c a IH]; simpl; intros H.
  - rewrite N.eqb_refl; reflexivity.
  - destruct (N.eqb c sep) eqn:E.
    + apply N.eqb_eq in E; tauto.
    + rewrite IH by tauto; reflexivity.
Qed.

Lemma split_none (sep : char16) (a : jsstring) :
  ~ In sep a -> split sep a = [a].
Proof.
  induction a as [|c a IH]; simpl; intros H; [reflexivity|].
  destruct (N.eqb c sep) eqn:E.
  - apply N.eqb_eq in E; tauto.
  - rewrite IH by tauto; reflexivity.
Qed.

(** ** Reading one cookie *)

Lemma cookie_name_is_string (cookie : jsstring) :
  exists n, cookie_name cookie = Str n /\ ~ In equals_sign n.
Proof.
  unfold cookie_name, element.
  destruct (split equals_sign (trim cookie)) as [|p ps] eqn:E.
  - exfalso; exact (split_not_nil _ _ E).
  - exists p; split; [reflexivity | exact (proj1 (split_inv _ _ _ _ E))].
Qed.

(** An entry [name=x] whose [x] holds no [=] is read as it stands. *)
Lemma is_entry_read (name x e : jsstring) :
  is_entry name x e -> ~ In equals_sign name -> ~ In equals_sign x ->
  cookie_name e = Str name /\ cookie_value e = Str x.
Proof.
  unfold is_entry, cookie_name, cookie_value, element; intros -> Hn Hx.
  rewrite split_app by assumption.
  rewrite split_none by assumption.
  split; reflexivity.
Qed.

(** The name is read right whatever the value holds. *)
Lemma is_entry_name (name x e : jsstring) :
  is_entry name x e -> ~ In equals_sign name -> cookie_name e = Str name.
Proof.
  unfold is_entry, cookie_name, element; intros -> Hn.
  rewrite split_app by assumption; reflexivity.
Qed.

(** A cookie that is read with a name and a value is a [name=...] entry. *)
Lemma named_valued_is_entry (name x e : jsstring) :
  cookie_name e = Str name -> cookie_value e = Str x ->
  exists y, is_entry name y e.
Proof.
  unfold is_entry, cookie_name, cookie_value, element.
  destruct (split equals_sign (trim e)) as [|p ps] eqn:E; simpl;
    [discriminate|].
  intros Hn Hv; inversion Hn; subst p.
  destruct (split_inv _ _ _ _ E) as [_ [[-> _]|[y [Hy _]]]].
  - discriminate.
  - exists y; exact Hy.
Qed.

(** A cookie read with a name and no value is the bare name. *)
Lemma named_unvalued_is_bare (name e : jsstring) :
  cookie_name e = Str name -> cookie_value e = Undefined -> trim e = name.
Proof.
  unfold cookie_name, cookie_value, element.
  destruct (split equals_sign (trim e)) as [|p ps] eqn:E; simpl;
    [discriminate|].
  intros Hn Hv; inversion Hn; subst p.
  destruct (split_inv _ _ _ _ E) as [_ [[_ ->]|[y [_ ->]]]].
  - reflexivity.
  - destruct (split equals_sign y) eqn:Ey;
      [exfalso; exact (split_not_nil _ _ Ey) | discriminate].
Qed.

(** ** Objects *)

Lemma get_set_same (k : jsstring) (v : value) (o : object) :
  get k (set k v o) = v.
Proof.
  induction o as [|[a w] o IH]; simpl.
  - rewrite str_eqb_refl; reflexivity.
  - destruct (str_eqb a k) eqn:E; simpl; rewrite E; auto.
Qed.

Lemma get_set_other (k k' : jsstring) (v : value) (o : object) :
  k <> k' -> get k (set k' v o) = get k o.
Proof.
  intros H; induction o as [|[a w] o IH]; simpl.
  - rewrite str_eqb_neq by congruence; reflexivity.
  - destruct (str_eqb a k') eqn:E; simpl; destruct (str_eqb a k) eqn:E2;
      auto.
    apply str_eqb_eq in E, E2; congruence.
Qed.

(** ** The loop *)

(** What one call of the callback does, by the cookie it is given. *)
Lemma callback_step (v : variant) (c : jsstring) (t : object) (n : N) :
  callback v c (t, n) =
  if strict_eq (cookie_name c) ct0 then
    match cookie_value c with
    | Undefined => ([], Throw TypeError)
    | Str x =>
        ([Log (FoundCt0 (substring0 20 x ++ lit "..."))],
         Normal (set csrf_token (Str x) (set ct0 (Str x) t), (n + 2)%N))
    end
  else if captures_auth v && strict_eq (cookie_name c) auth_token then
    match cookie_value c with
    | Undefined => ([], Throw TypeError)
    | Str x =>
        ([Log (FoundAuthToken (substring0 20 x ++ lit "..."))],
         Normal (set auth_token (Str x) t, (n + 1)%N))
    end
  else ([], Normal (t, n)).
Proof.
  destruct v; unfold callback, Strict.callback, Tolerant.callback;
    fold (cookie_name c); fold (cookie_value c);
    destruct (strict_eq (cookie_name c) ct0);
    try destruct (strict_eq (cookie_name c) auth_token);
    destruct (cookie_value c); reflexivity.
Qed.

Lemma forEach_app {S : Type} (f : jsstring -> S -> M S)
    (xs ys : list jsstring) (st : S) :
  forEach f (xs ++ ys) st = (st' <- forEach f xs st ;; forEach f ys st').
Proof.
  revert st; induction xs as [|x xs IH]; intros st; simpl.
  - unfold bind, ret; simpl. destruct (forEach f ys st); reflexivity.
  - unfold bind at 1 3.
    destruct (f x st) as [t [st1| |e]]; simpl; try reflexivity.
    rewrite IH. unfold bind.
    destruct (forEach f xs st1) as [t1 [st2| |e]]; simpl; try reflexivity.
    destruct (forEach f ys st2) as [t2 r2]; simpl.
    rewrite app_assoc; reflexivity.
Qed.

(** A property of the captured variables that every normal call of the
    callback keeps, on the cookies that satisfy [Q], is kept by the loop. *)
Lemma forEach_invariant {S : Type} (f : jsstring -> S -> M S)
    (P : S -> Prop) (Q : jsstring -> Prop) :
  (forall x st tr st', Q x -> P st -> f x st = (tr, Normal st') -> P st') ->
  forall xs st tr st',
    Forall Q xs -> P st -> forEach f xs st = (tr, Normal st') -> P st'.
Proof.
  intros Hstep xs; induction xs as [|x xs IH]; intros st tr st' HQ HP; simpl.
  - unfold ret; intros H; inversion H; subst; assumption.
  - inversion HQ as [|? ? Hx Hxs]; subst.
    unfold bind.
    destruct (f x st) as [t [st1| |e]] eqn:E; try discriminate.
    destruct (forEach f xs st1) as [t1 r1] eqn:E1.
    intros H; inversion H; subst.
    eapply IH; [exact Hxs | eapply Hstep; eassumption | exact E1].
Qed.

(** When the loop ends normally, so did the callback on every cookie. *)
Lemma forEach_normal_each {S : Type} (f : jsstring -> S -> M S)
    (xs : list jsstring) (st : S) (tr : trace) (st' : S) :
  forEach f xs st = (tr, Normal st') ->
  forall x, In x xs -> exists s1 t1 s2, f x s1 = (t1, Normal s2).
Proof.
  revert st tr st'; induction xs as [|x xs IH]; intros st tr st' H y Hy.
  - destruct Hy.
  - simpl in H; unfold bind in H.
    destruct (f x st) as [t [st1| |e]] eqn:E; try discriminate.
    destruct (forEach f xs st1) as [t1 r1] eqn:E1.
    inversion H; subst.
    destruct Hy as [<-|Hy]; [exists st, t, st1; exact E | eauto].
Qed.

(** The loop never executes [return]. *)
Lemma forEach_no_return (v : variant) (xs : list jsstring) (st : vars)
    (tr : trace) :
  forEach (callback v) xs st <> (tr, Return).
Proof.
  revert st tr; induction xs as [|x xs IH]; intros [t n] tr; simpl.
  - discriminate.
  - rewrite callback_step. unfold bind.
    destruct (strict_eq (cookie_name x) ct0);
      [|destruct (captures_auth v && strict_eq (cookie_name x) auth_token)];
      try destruct (cookie_value x); try discriminate;
      match goal with
      | |- context [forEach (callback v) xs ?s] =>
          destruct (forEach (callback v) xs s) as [t1 r1] eqn:E1
      end;
      intros H; inversion H; subst; exact (IH _ _ E1).
Qed.

Lemma forEach_only_logs (v : variant) (xs : list jsstring) (st : vars) :
  only_logs (fst (forEach (callback v) xs st)).
Proof.
  revert st; induction xs as [|x xs IH]; intros [t n]; simpl.
  - constructor.
  - rewrite callback_step. unfold bind.
    destruct (strict_eq (cookie_name x) ct0);
      [|destruct (captures_auth v && strict_eq (cookie_name x) auth_token)];
      try destruct (cookie_value x); simpl; try constructor;
      match goal with
      | |- context [forEach (callback v) xs ?s] =>
          specialize (IH s);
          destruct (forEach (callback v) xs s) as [t1 r1]
      end; simpl in *; try assumption;
      constructor; eauto.
Qed.

Lemma only_logs_quiet (t : trace) :
  only_logs t -> saved t = [] /\ errors t = [] /\ clipboard_texts t = [].
Proof.
  induction 1 as [|e t [m ->] _ IH]; simpl; auto.
Qed.

(** A cookie of another name leaves the fields alone. *)
Lemma callback_frame (v : variant) (c : jsstring) (t t' : object)
    (n n' : N) (tr : trace) :
  callback v c (t, n) = (tr, Normal (t', n')) ->
  (cookie_name c <> Str ct0 ->
   get ct0 t' = get ct0 t /\ get csrf_token t' = get csrf_token t) /\
  (cookie_name c <> Str auth_token -> get auth_token t' = get auth_token t).
Proof.
  rewrite callback_step; step_cases c v; intros H; inversion H; subst;
    try (apply strict_eq_true in Hct0); try (apply strict_eq_true in Hauth);
    (split; [intros Hn; try contradiction | intros Hn; try contradiction]);
    rewrite ?get_set_other by distinct_keys; auto.
Qed.

(** A cookie of a captured name stores its value, which is a string. *)
Lemma callback_write (v : variant) (c : jsstring) (t t' : object)
    (n n' : N) (tr : trace) (name : jsstring) :
  callback v c (t, n) = (tr, Normal (t', n')) ->
  captured v name -> cookie_name c = Str name ->
  cookie_value c <> Undefined /\
  get name t' = cookie_value c /\
  (name = ct0 -> get csrf_token t' = cookie_value c).
Proof.
  intros H Hcap Hname; rewrite callback_step in H; rewrite Hname in H.
  destruct Hcap as [->|[-> ->]].
  - replace (strict_eq (Str ct0) ct0) with true in H by reflexivity.
    destruct (cookie_value c) as [|x]; inversion H; subst.
    split; [discriminate|].
    rewrite get_set_other by distinct_keys.
    rewrite !get_set_same; auto.
  - replace (strict_eq (Str auth_token) ct0) with false in H by reflexivity.
    replace (strict_eq (Str auth_token) auth_token) with true in H
      by reflexivity.
    simpl andb in H; cbv iota in H.
    destruct (cookie_value c) as [|x]; inversion H; subst.
    split; [discriminate|].
    rewrite get_set_same; split; [reflexivity|].
    intros Hk; exfalso; revert Hk; distinct_keys.
Qed.

(** The callback keeps [ct0] and [csrf_token] equal. *)
Lemma callback_pair (v : variant) (c : jsstring) (t t' : object)
    (n n' : N) (tr : trace) :
  callback v c (t, n) = (tr, Normal (t', n')) ->
  get ct0 t = get csrf_token t -> get ct0 t' = get csrf_token t'.
Proof.
  rewrite callback_step; step_cases c v; intros H; inversion H; subst;
    intros Heq; rewrite ?get_set_same, ?get_set_other by distinct_keys;
    rewrite ?get_set_same; auto.
Qed.

(** The three give what the loop does over the whole list. *)
Lemma loop_pair (v : variant) (xs : list jsstring) (st st' : vars)
    (tr : trace) :
  forEach (callback v) xs st = (tr, Normal st') ->
  get ct0 (fst st) = get csrf_token (fst st) ->
  get ct0 (fst st') = get csrf_token (fst st').
Proof.
  intros H H0.
  refine (@forEach_invariant _ (callback v)
            (fun s => get ct0 (fst s) = get csrf_token (fst s))
            (fun _ => True) _ xs st tr st' _ H0 H).
  - intros x [t n] tr1 [t' n'] _ HP E; simpl in *.
    eapply callback_pair; eauto.
  - apply Forall_forall; auto.
Qed.

Lemma loop_frame_ct0 (v : variant) (xs : list jsstring) (st st' : vars)
    (tr : trace) :
  forEach (callback v) xs st = (tr, Normal st') ->
  (forall e, In e xs -> cookie_name e <> Str ct0) ->
  get ct0 (fst st') = get ct0 (fst st) /\
  get csrf_token (fst st') = get csrf_token (fst st).
Proof.
  intros H HQ.
  refine (@forEach_invariant _ (callback v)
            (fun s => get ct0 (fst s) = get ct0 (fst st) /\
                      get csrf_token (fst s) = get csrf_token (fst st))
            (fun e => cookie_name e <> Str ct0) _ xs st tr st' _ _ H);
    [|apply Forall_forall; assumption | auto].
  intros x [t n] tr1 [t' n'] Hx [HP1 HP2] E; simpl in *.
  destruct (proj1 (callback_frame _ _ _ _ _ _ _ E) Hx) as [-> ->]; auto.
Qed.

Lemma loop_frame_auth (v : variant) (xs : list jsstring) (st st' : vars)
    (tr : trace) :
  forEach (callback v) xs st = (tr, Normal st') ->
  (forall e, In e xs -> cookie_name e <> Str auth_token) ->
  get auth_token (fst st') = get auth_token (fst st).
Proof.
  intros H HQ.
  refine (@forEach_invariant _ (callback v)
            (fun s => get auth_token (fst s) = get auth_token (fst st))
            (fun e => cookie_name e <> Str auth_token) _ xs st tr st' _ _ H);
    [|apply Forall_forall; assumption | auto].
  intros x [t n] tr1 [t' n'] Hx HP E; simpl in *.
  rewrite (proj2 (callback_frame _ _ _ _ _ _ _ E) Hx); auto.
Qed.

(** The last cookie of a captured name decides the field. *)
Lemma loop_last_named (v : variant) (pre post : list jsstring)
    (e name : jsstring) (st st' : vars) (tr : trace) :
  forEach (callback v) (pre ++ e :: post) st = (tr, Normal st') ->
  captured v name -> cookie_name e = Str name ->
  (forall e', In e' post -> cookie_name e' <> Str name) ->
  cookie_value e <> Undefined /\
  get name (fst st') = cookie_value e /\
  (name = ct0 -> get csrf_token (fst st') = cookie_value e).
Proof.
  intros H Hcap Hname Hpost.
  rewrite forEach_app in H; unfold bind in H.
  destruct (forEach (callback v) pre st) as [t0 [[t1 n1]| |x]];
    try discriminate.
  simpl in H; unfold bind in H.
  destruct (callback v e (t1, n1)) as [t2 [[t3 n3]| |x]] eqn:E;
    try discriminate.
  destruct (forEach (callback v) post (t3, n3)) as [t4 [st4| |x]] eqn:E4;
    try discriminate.
  inversion H; subst.
  destruct (callback_write _ _ _ _ _ _ _ _ E Hcap Hname) as [Hv [Hg Hc]].
  split; [assumption|].
  destruct Hcap as [->|[-> ->]].
  - destruct (loop_frame_ct0 _ _ _ _ _ E4 Hpost) as [-> ->]; simpl; auto.
  - rewrite (loop_frame_auth _ _ _ _ _ E4 Hpost); simpl.
    split; [assumption | intros Hk; exfalso; revert Hk; distinct_keys].
Qed.

(** ** The script around the loop *)

(** The validation that follows the loop, by the loop's result. *)
Lemma collect_unfold (v : variant) (cookie : jsstring) :
  collect v cookie =
  match forEach (callback v) (entries cookie) ([], 0%N) with
  | (tr, Normal (t, n)) =>
      let b := set bearer_token (Str BEARER) t in
      if negb (truthy (get ct0 b)) then
        (tr ++ Log (bearer_line v) :: List.map Error missing_ct0_errors,
         Return)
      else if captures_auth v && negb (truthy (get auth_token b)) then
        (tr ++ Log (bearer_line v) :: List.map Error missing_auth_token_errors,
         Return)
      else (tr ++ [Log (bearer_line v)], Normal (b, (n + 1)%N))
  | (tr, Return) => (tr, Return)
  | (tr, Throw e) => (tr, Throw e)
  end.
Proof.
  destruct v; unfold collect, Strict.collect, Tolerant.collect, entries;
    cbv zeta; simpl callback;
    match goal with
    | |- bind ?m _ = match ?L with _ => _ end =>
        change m with L; destruct L as [tr [[t n]| |e]]
    end; try reflexivity; unfold bind at 1;
    destruct (truthy (get ct0 (set bearer_token (Str BEARER) t)));
    try destruct (truthy (get auth_token (set bearer_token (Str BEARER) t)));
    reflexivity.
Qed.

Lemma run_unfold (v : variant) (cookie : jsstring) (c : option clipboard) :
  run v (Browser cookie c) =
  Log Banner :: Log Rule ::
  match collect v cookie with
  | (tr, Normal (b, n)) =>
      tr ++ delivery v n (JSON_stringify b)
         ++ clipboard_events c (JSON_stringify b)
  | (tr, Return) => tr
  | (tr, Throw _) => tr ++ List.map Error extraction_failed_errors
  end.
Proof.
  destruct v; unfold run, script, Strict.script, Tolerant.script;
    simpl document_cookie; simpl navigator_clipboard; simpl collect;
    match goal with
    | |- context [bind (?f cookie) _] =>
        destruct (f cookie) as [tr [[b n]| |[]]]
    end; try reflexivity;
    destruct c as [[[write|]]|]; simpl; rewrite <- ?app_assoc;
    try destruct (write (JSON_stringify b)); reflexivity.
Qed.

(** ** What a run shows *)

Lemma saved_app (a b : trace) : saved (a ++ b) = saved a ++ saved b.
Proof. apply flat_map_app. Qed.

Lemma errors_app (a b : trace) : errors (a ++ b) = errors a ++ errors b.
Proof. apply flat_map_app. Qed.

Lemma clipboard_texts_app (a b : trace) :
  clipboard_texts (a ++ b) = clipboard_texts a ++ clipboard_texts b.
Proof. apply flat_map_app. Qed.

Lemma loop_quiet (v : variant) (xs : list jsstring) (st : vars) (tr : trace)
    (r : completion vars) :
  forEach (callback v) xs st = (tr, r) ->
  saved tr = [] /\ errors tr = [] /\ clipboard_texts tr = [].
Proof.
  intros H; apply only_logs_quiet.
  change tr with (fst (tr, r)); rewrite <- H; apply forEach_only_logs.
Qed.

Lemma get_after_bearer (k : jsstring) (t : object) :
  k <> bearer_token -> get k (set bearer_token (Str BEARER) t) = get k t.
Proof. intros H; apply get_set_other; assumption. Qed.

(** When the validation lets the object through. *)
Lemma collect_normal (v : variant) (cookie : jsstring) (tr : trace)
    (b : object) (n : N) :
  collect v cookie = (tr, Normal (b, n)) ->
  exists tr0 t n0,
    forEach (callback v) (entries cookie) ([], 0%N) = (tr0, Normal (t, n0)) /\
    b = set bearer_token (Str BEARER) t /\
    truthy (get ct0 t) = true /\
    (captures_auth v = true -> truthy (get auth_token t) = true) /\
    tr = tr0 ++ [Log (bearer_line v)].
Proof.
  rewrite collect_unfold.
  destruct (forEach (callback v) (entries cookie) ([], 0%N))
    as [tr0 [[t n0]| |e]]; try discriminate.
  cbv zeta; rewrite !get_after_bearer by distinct_keys.
  destruct (truthy (get ct0 t)) eqn:Hc; simpl; [|discriminate].
  destruct (captures_auth v); simpl;
    [destruct (truthy (get auth_token t)) eqn:Ha; simpl; [|discriminate]|];
    intros H; inversion H; subst; exists tr0, t, n0; repeat split; auto;
    discriminate.
Qed.

(** When it does not: [ct0] is falsy after the loop. *)
Lemma collect_no_ct0 (v : variant) (cookie : jsstring) (tr0 : trace)
    (t : object) (n0 : N) :
  forEach (callback v) (entries cookie) ([], 0%N) = (tr0, Normal (t, n0)) ->
  truthy (get ct0 t) = false ->
  collect v cookie =
  (tr0 ++ Log (bearer_line v) :: List.map Error missing_ct0_errors, Return).
Proof.
  intros H Hf; rewrite collect_unfold, H; cbv zeta.
  rewrite get_after_bearer by distinct_keys; rewrite Hf; reflexivity.
Qed.

Lemma collect_throw (v : variant) (cookie : jsstring) (tr0 : trace)
    (e : exn) :
  forEach (callback v) (entries cookie) ([], 0%N) = (tr0, Throw e) ->
  collect v cookie = (tr0, Throw e).
Proof. intros H; rewrite collect_unfold, H; reflexivity. Qed.

(** The validation itself saves nothing and copies nothing. *)
Lemma collect_quiet (v : variant) (cookie : jsstring) :
  saved (fst (collect v cookie)) = [] /\
  clipboard_texts (fst (collect v cookie)) = [].
Proof.
  rewrite collect_unfold.
  destruct (forEach (callback v) (entries cookie) ([], 0%N))
    as [tr0 r] eqn:E.
  destruct (loop_quiet _ _ _ _ _ E) as [Hs [_ Hc]].
  destruct r as [[t n0]| |e]; simpl; auto.
  destruct (negb (truthy (get ct0 (set bearer_token (Str BEARER) t))));
    [|destruct (captures_auth v &&
                negb (truthy (get auth_token
                               (set bearer_token (Str BEARER) t))))];
    simpl; rewrite saved_app, clipboard_texts_app, Hs, Hc; auto.
Qed.

Lemma delivery_saved (v : variant) (n : N) (config : jsstring) :
  saved (delivery v n config) =
  [File config_json application_json config].
Proof. destruct v; reflexivity. Qed.

Lemma delivery_errors (v : variant) (n : N) (config : jsstring) :
  errors (delivery v n config) = [].
Proof. destruct v; reflexivity. Qed.

Lemma delivery_clipboard (v : variant) (n : N) (config : jsstring) :
  clipboard_texts (delivery v n config) = [].
Proof. destruct v; reflexivity. Qed.

Lemma clipboard_events_quiet (c : option clipboard) (config : jsstring) :
  saved (clipboard_events c config) = [] /\
  errors (clipboard_events c config) = [].
Proof. destruct c as [[[write|]]|]; auto. Qed.

(** The file of a run is the validated object, serialized; there is no
    file when the validation stops the script. *)
Lemma saved_run (v : variant) (cookie : jsstring) (c : option clipboard) :
  saved (run v (Browser cookie c)) =
  match bundle v cookie with
  | Some b => [File config_json application_json (JSON_stringify b)]
  | None => []
  end.
Proof.
  rewrite run_unfold; unfold bundle.
  destruct (collect_quiet v cookie) as [Hs _].
  destruct (collect v cookie) as [tr [[b n]| |e]]; simpl fst in Hs;
    change (saved (Log Banner :: Log Rule :: ?x)) with (saved x).
  - rewrite !saved_app, Hs, delivery_saved,
      (proj1 (clipboard_events_quiet c _)); reflexivity.
  - assumption.
  - rewrite saved_app, Hs; reflexivity.
Qed.

(** A run without a bundle reports one of the three error blocks. *)
Lemma errors_run_none (v : variant) (cookie : jsstring)
    (c : option clipboard) :
  bundle v cookie = None ->
  errors (run v (Browser cookie c)) = missing_ct0_errors \/
  (v = Strict_variant /\
   errors (run v (Browser cookie c)) = missing_auth_token_errors) \/
  errors (run v (Browser cookie c)) = extraction_failed_errors.
Proof.
  rewrite run_unfold; unfold bundle; rewrite collect_unfold.
  destruct (forEach (callback v) (entries cookie) ([], 0%N))
    as [tr0 r] eqn:E.
  destruct (loop_quiet _ _ _ _ _ E) as [_ [He _]].
  destruct r as [[t n0]| |e]; cbv zeta.
  - destruct (negb (truthy (get ct0 (set bearer_token (Str BEARER) t)))).
    + intros _; left.
      change (errors (Log Banner :: Log Rule :: ?x)) with (errors x).
      rewrite errors_app, He; reflexivity.
    + destruct v; simpl andb.
      * destruct (negb (truthy (get auth_token
                                  (set bearer_token (Str BEARER) t))));
          [|discriminate].
        intros _; right; left; split; [reflexivity|].
        change (errors (Log Banner :: Log Rule :: ?x)) with (errors x).
        rewrite errors_app, He; reflexivity.
      * discriminate.
  - exfalso; exact (forEach_no_return _ _ _ _ E).
  - intros _; right; right.
    change (errors (Log Banner :: Log Rule :: ?x)) with (errors x).
    rewrite errors_app, He; reflexivity.
Qed.

Lemma errors_run_some (v : variant) (cookie : jsstring)
    (c : option clipboard) (b : object) :
  bundle v cookie = Some b -> errors (run v (Browser cookie c)) = [].
Proof.
  rewrite run_unfold; unfold bundle.
  destruct (collect v cookie) as [tr [[b' n]| |e]] eqn:E; try discriminate.
  intros _.
  destruct (collect_normal _ _ _ _ _ E) as (tr0 & t & n0 & Hl & _ & _ & _ & ->).
  destruct (loop_quiet _ _ _ _ _ Hl) as [_ [He _]].
  change (errors (Log Banner :: Log Rule :: ?x)) with (errors x).
  rewrite !errors_app, He, delivery_errors,
    (proj2 (clipboard_events_quiet c _)); reflexivity.
Qed.

Lemma clipboard_run (v : variant) (cookie : jsstring) (c : option clipboard) :
  clipboard_texts (run v (Browser cookie c)) =
  match bundle v cookie with
  | Some b => clipboard_texts (clipboard_events c (JSON_stringify b))
  | None => []
  end.
Proof.
  rewrite run_unfold; unfold bundle.
  destruct (collect_quiet v cookie) as [_ Hc].
  destruct (collect v cookie) as [tr [[b n]| |e]]; simpl fst in Hc;
    change (clipboard_texts (Log Banner :: Log Rule :: ?x))
      with (clipboard_texts x).
  - rewrite !clipboard_texts_app, Hc, delivery_clipboard; reflexivity.
  - assumption.
  - rewrite clipboard_texts_app, Hc; reflexivity.
Qed.

Lemma bundle_some (v : variant) (cookie : jsstring) (b : object) :
  bundle v cookie = Some b ->
  exists tr n, collect v cookie = (tr, Normal (b, n)).
Proof.
  unfold bundle.
  destruct (collect v cookie) as [tr [[b' n]| |e]]; try discriminate.
  intros H; inversion H; subst; eauto.
Qed.

(** The loop that leads to a bundle. *)
Lemma bundle_loop (v : variant) (cookie : jsstring) (b : object) :
  bundle v cookie = Some b ->
  exists tr t n,
    forEach (callback v) (entries cookie) ([], 0%N) = (tr, Normal (t, n)) /\
    b = set bearer_token (Str BEARER) t /\
    truthy (get ct0 t) = true /\
    (captures_auth v = true -> truthy (get auth_token t) = true).
Proof.
  intros H; destruct (bundle_some _ _ _ H) as (tr & n & E).
  destruct (collect_normal _ _ _ _ _ E) as (tr0 & t & n0 & Hl & Hb & H1 & H2 & _).
  exists tr0, t, n0; auto.
Qed.

(** In a loop that ends normally, a cookie of a captured name is a
    [name=...] entry: the bare name would have thrown. *)
Lemma loop_named_is_entry (v : variant) (xs : list jsstring) (st st' : vars)
    (tr : trace) (name e : jsstring) :
  forEach (callback v) xs st = (tr, Normal st') ->
  In e xs -> captured v name -> cookie_name e = Str name ->
  exists y, is_entry name y e.
Proof.
  intros H Hin Hcap Hname.
  destruct (forEach_normal_each _ _ _ _ _ H e Hin)
    as ([t1 n1] & t2 & [t3 n3] & E).
  destruct (callback_write _ _ _ _ _ _ _ _ E Hcap Hname) as [Hv _].
  destruct (cookie_value e) as [|x] eqn:Ev; [contradiction|].
  exact (named_valued_is_entry _ _ _ Hname Ev).
Qed.

(** Without a bare [ct0] (or, where it is captured, a bare [auth_token])
    among the cookies, the loop ends normally. *)
Lemma loop_total (v : variant) (xs : list jsstring) (st : vars) :
  (forall e, In e xs ->
     trim e <> ct0 /\ (captures_auth v = true -> trim e <> auth_token)) ->
  exists tr st', forEach (callback v) xs st = (tr, Normal st').
Proof.
  revert st; induction xs as [|x xs IH]; intros [t n] Hx; simpl.
  - eexists _, _; reflexivity.
  - assert (Hxs : forall e, In e xs ->
              trim e <> ct0 /\ (captures_auth v = true -> trim e <> auth_token))
      by (intros e He; apply Hx; right; exact He).
    destruct (Hx x (or_introl eq_refl)) as [Hc Ha].
    rewrite callback_step; unfold bind.
    step_cases x v;
      try (apply strict_eq_true in Hct0);
      try (apply strict_eq_true in Hauth);
      try (exfalso; apply Hc; eapply named_unvalued_is_bare; eassumption);
      try (exfalso; apply Ha; [reflexivity|];
           eapply named_unvalued_is_bare; eassumption);
      match goal with
      | |- context [forEach (callback v) xs ?s] =>
          destruct (IH s Hxs) as (tr1 & st1 & ->)
      end; eexists _, _; reflexivity.
Qed.

(** * The claims *)

(** C4.  For every cookie string, a bundle that either script outputs has
    its [bearer_token] equal to the fixed constant, and that bundle is
    what the saved file holds; no cookie, whatever its name or value, can
    change it. *)
Theorem bearer_token_is_fixed (v : variant) (cookie : jsstring) (b : object) :
  bundle v cookie = Some b ->
  get bearer_token b = Str BEARER /\
  forall c, saved (run v (Browser cookie c)) =
            [File config_json application_json (JSON_stringify b)].
Proof.
  intros H; split.
  - destruct (bundle_loop _ _ _ H) as (tr & t & n & _ & -> & _).
    apply get_set_same.
  - intros c; rewrite saved_run, H; reflexivity.
Qed.

Lemma bearer_token_is_fixed_witness :
  bundle Tolerant_variant (lit "bearer_token=other; ct0=abc") =
    Some [(ct0, Str (lit "abc")); (csrf_token, Str (lit "abc"));
          (bearer_token, Str BEARER)] /\
  get bearer_token
    [(ct0, Str (lit "abc")); (csrf_token, Str (lit "abc"));
     (bearer_token, Str BEARER)] = Str BEARER.
Proof.
  split; [reflexivity|].
  apply (bearer_token_is_fixed Tolerant_variant
           (lit "bearer_token=other; ct0=abc")).
  reflexivity.
Defined.

(** C5.  Every bundle that either script serializes has [csrf_token]
    equal to [ct0], and its [ct0] is a string that is not empty. *)
Theorem bundle_invariant (v : variant) (cookie : jsstring) (b : object) :
  bundle v cookie = Some b ->
  exists x, x <> [] /\ get ct0 b = Str x /\ get csrf_token b = Str x.
Proof.
  intros H; destruct (bundle_loop _ _ _ H) as (tr & t & n & Hl & -> & Ht & _).
  pose proof (loop_pair _ _ _ _ _ Hl eq_refl) as Hp; simpl in Hp.
  rewrite !get_after_bearer by distinct_keys.
  rewrite <- Hp.
  destruct (get ct0 t) as [|[|c x]]; try discriminate.
  exists (c :: x); repeat split; discriminate.
Qed.

Lemma bundle_invariant_witness :
  exists x, x <> [] /\
    get ct0 [(ct0, Str (lit "abc123")); (csrf_token, Str (lit "abc123"));
             (bearer_token, Str BEARER)] = Str x /\
    get csrf_token [(ct0, Str (lit "abc123")); (csrf_token, Str (lit "abc123"));
                    (bearer_token, Str BEARER)] = Str x.
Proof.
  apply (bundle_invariant Tolerant_variant (lit "ct0=abc123")).
  reflexivity.
Defined.

(** The names the scripts look for hold no [=]. *)
Lemma ct0_no_equals : ~ In equals_sign ct0.
Proof. unfold ct0, equals_sign; simpl; intuition discriminate. Qed.

Lemma auth_token_no_equals : ~ In equals_sign auth_token.
Proof. unfold auth_token, equals_sign; simpl; intuition discriminate. Qed.

Lemma captured_no_equals (v : variant) (name : jsstring) :
  captured v name -> ~ In equals_sign name.
Proof.
  intros [->|[_ ->]]; [apply ct0_no_equals | apply auth_token_no_equals].
Qed.

Lemma captured_not_bearer (v : variant) (name : jsstring) :
  captured v name -> name <> bearer_token.
Proof. intros [->|[_ ->]]; distinct_keys. Qed.

(** The field of a captured name is the value read from the last cookie
    of that name. *)
Lemma bundle_last_named (v : variant) (cookie : jsstring)
    (pre post : list jsstring) (e name : jsstring) (b : object) :
  entries cookie = pre ++ e :: post ->
  captured v name -> cookie_name e = Str name ->
  (forall e', In e' post -> cookie_name e' <> Str name) ->
  bundle v cookie = Some b ->
  get name b = cookie_value e /\
  (name = ct0 -> get csrf_token b = cookie_value e).
Proof.
  intros He Hcap Hname Hpost H.
  destruct (bundle_loop _ _ _ H) as (tr & t & n & Hl & -> & _).
  rewrite He in Hl.
  destruct (loop_last_named _ _ _ _ _ _ _ _ Hl Hcap Hname Hpost)
    as (_ & Hg & Hc); simpl in Hg, Hc.
  rewrite !get_after_bearer
    by first [exact (captured_not_bearer _ _ Hcap) | distinct_keys].
  auto.
Qed.

(** C1, as it is stated, fails: of two [ct0] entries the first one is in
    the cookie string and is not what the bundle holds. *)
Lemma ct0_of_any_entry_fails :
  ~ (forall (v : variant) (cookie x : jsstring) (b : object),
       has_entry ct0 x cookie -> bundle v cookie = Some b ->
       get ct0 b = Str x /\ get csrf_token b = Str x).
Proof.
  intros H.
  assert (He : has_entry ct0 (lit "a") (lit "ct0=a; ct0=b")).
  { exists (lit "ct0=a"); split; [left; reflexivity | reflexivity]. }
  destruct (H Tolerant_variant (lit "ct0=a; ct0=b") (lit "a") _ He eq_refl)
    as [H1 _].
  discriminate H1.
Qed.

(** C1, amended.  When the last entry of the cookie string that reads
    [ct0=...] is [ct0=x] and [x] holds no [=], a bundle that either
    script produces has [ct0] and [csrf_token] both equal to [x]. *)
Theorem last_ct0_entry_fills_both (v : variant) (cookie : jsstring)
    (pre post : list jsstring) (e x : jsstring) (b : object) :
  entries cookie = pre ++ e :: post ->
  is_entry ct0 x e ->
  ~ In equals_sign x ->
  (forall e' y, In e' post -> ~ is_entry ct0 y e') ->
  bundle v cookie = Some b ->
  get ct0 b = Str x /\ get csrf_token b = Str x.
Proof.
  intros He Hx Hno Hpost H.
  destruct (is_entry_read _ _ _ Hx ct0_no_equals Hno) as [Hname Hval].
  assert (Hcap : captured v ct0) by (left; reflexivity).
  assert (Hpost' : forall e', In e' post -> cookie_name e' <> Str ct0).
  { intros e' Hin Hn.
    destruct (bundle_loop _ _ _ H) as (tr & t & n & Hl & _).
    assert (Hin' : In e' (entries cookie))
      by (rewrite He; apply in_or_app; right; right; exact Hin).
    destruct (loop_named_is_entry _ _ _ _ _ _ _ Hl Hin' Hcap Hn) as [y Hy].
    exact (Hpost e' y Hin Hy). }
  destruct (bundle_last_named _ _ _ _ _ _ _ He Hcap Hname Hpost' H)
    as [Hg Hc].
  rewrite Hval in Hg, Hc; auto.
Qed.

Lemma last_ct0_entry_fills_both_witness :
  get ct0 [(ct0, Str (lit "b")); (csrf_token, Str (lit "b"));
           (auth_token, Str (lit "t")); (bearer_token, Str BEARER)]
    = Str (lit "b") /\
  get csrf_token [(ct0, Str (lit "b")); (csrf_token, Str (lit "b"));
                  (auth_token, Str (lit "t")); (bearer_token, Str BEARER)]
    = Str (lit "b").
Proof.
  apply (last_ct0_entry_fills_both Strict_variant
           (lit "ct0=a; ct0=b ; auth_token=t")
           [lit "ct0=a"] [lit " auth_token=t"] (lit " ct0=b ") (lit "b")).
  - reflexivity.
  - reflexivity.
  - simpl; intuition discriminate.
  - intros e' y [<-|[]]; discriminate.
  - reflexivity.
Defined.



(** Cookies none of which reads [ct0=...] leave [ct0] as it was. *)
Lemma loop_without_ct0 (v : variant) (xs : list jsstring) (st st' : vars)
    (tr : trace) :
  forEach (callback v) xs st = (tr, Normal st') ->
  (forall e x, In e xs -> ~ is_entry ct0 x e) ->
  get ct0 (fst st') = get ct0 (fst st).
Proof.
  intros H Hno.
  apply (loop_frame_ct0 _ _ _ _ _ H).
  intros e Hin Hn.
  assert (Hcap : captured v ct0) by (left; reflexivity).
  destruct (loop_named_is_entry _ _ _ _ _ _ _ H Hin Hcap Hn) as [y Hy].
  exact (Hno e y Hin Hy).
Qed.

(** A run whose loop leaves [ct0] falsy, or throws, saves nothing. *)
Lemma run_missing_ct0 (v : variant) (cookie : jsstring)
    (c : option clipboard) (tr : trace) (t : object) (n : N) :
  forEach (callback v) (entries cookie) ([], 0%N) = (tr, Normal (t, n)) ->
  truthy (get ct0 t) = false ->
  bundle v cookie = None /\
  errors (run v (Browser cookie c)) = missing_ct0_errors.
Proof.
  intros Hl Hf.
  pose proof (collect_no_ct0 _ _ _ _ _ Hl Hf) as Hc.
  destruct (loop_quiet _ _ _ _ _ Hl) as [_ [He _]].
  split.
  - unfold bundle; rewrite Hc; reflexivity.
  - rewrite run_unfold, Hc.
    change (errors (Log Banner :: Log Rule :: ?x)) with (errors x).
    rewrite errors_app, He; reflexivity.
Qed.

Lemma run_throw (v : variant) (cookie : jsstring) (c : option clipboard)
    (tr : trace) (e : exn) :
  forEach (callback v) (entries cookie) ([], 0%N) = (tr, Throw e) ->
  bundle v cookie = None /\
  errors (run v (Browser cookie c)) = extraction_failed_errors.
Proof.
  intros Hl.
  pose proof (collect_throw _ _ _ _ Hl) as Hc.
  destruct (loop_quiet _ _ _ _ _ Hl) as [_ [He _]].
  split.
  - unfold bundle; rewrite Hc; reflexivity.
  - rewrite run_unfold, Hc.
    change (errors (Log Banner :: Log Rule :: ?x)) with (errors x).
    rewrite errors_app, He; reflexivity.
Qed.

(** A bare name is read as that name without a value. *)
Lemma bare_read (name e : jsstring) :
  trim e = name -> ~ In equals_sign name ->
  cookie_name e = Str name /\ cookie_value e = Undefined.
Proof.
  unfold cookie_name, cookie_value, element; intros -> Hn.
  rewrite split_none by assumption; split; reflexivity.
Qed.

(** The loop over cookies one of which is a bare captured name throws. *)
Lemma loop_bare_throws (v : variant) (xs : list jsstring) (st : vars)
    (e name : jsstring) :
  In e xs -> captured v name -> trim e = name ->
  exists tr, forEach (callback v) xs st = (tr, Throw TypeError).
Proof.
  intros Hin Hcap Hbare.
  destruct (bare_read _ _ Hbare (captured_no_equals _ _ Hcap)) as [Hn Hv].
  destruct (forEach (callback v) xs st) as [tr [st'| |[]]] eqn:Hl.
  - exfalso.
    destruct (forEach_normal_each _ _ _ _ _ Hl e Hin)
      as ([t1 n1] & t2 & [t3 n3] & E).
    destruct (callback_write _ _ _ _ _ _ _ _ E Hcap Hn) as [Hd _].
    contradiction.
  - exfalso; exact (forEach_no_return _ _ _ _ Hl).
  - exists tr; reflexivity.
Qed.

(** A run in which [ct0] is falsy whenever the loop ends normally: no
    bundle, no file, no clipboard write, and one of two error blocks, the
    missing-[ct0] one unless a bare name made the loop throw. *)
Lemma run_falsy_ct0 (v : variant) (cookie : jsstring) (c : option clipboard) :
  (forall tr t n,
     forEach (callback v) (entries cookie) ([], 0%N) = (tr, Normal (t, n)) ->
     truthy (get ct0 t) = false) ->
  bundle v cookie = None /\
  saved (run v (Browser cookie c)) = [] /\
  clipboard_texts (run v (Browser cookie c)) = [] /\
  (errors (run v (Browser cookie c)) = missing_ct0_errors \/
   errors (run v (Browser cookie c)) = extraction_failed_errors) /\
  (no_bare_names v cookie ->
   errors (run v (Browser cookie c)) = missing_ct0_errors).
Proof.
  intros Hfalsy.
  assert (Hb : bundle v cookie = None /\
               (errors (run v (Browser cookie c)) = missing_ct0_errors \/
                errors (run v (Browser cookie c)) = extraction_failed_errors)).
  { destruct (forEach (callback v) (entries cookie) ([], 0%N))
      as [tr [[t n]| |e]] eqn:Hl.
    - destruct (run_missing_ct0 _ _ c _ _ _ Hl (Hfalsy _ _ _ eq_refl)); auto.
    - exfalso; exact (forEach_no_return _ _ _ _ Hl).
    - destruct (run_throw _ _ c _ _ Hl); auto. }
  destruct Hb as [Hb He].
  rewrite saved_run, clipboard_run, Hb; repeat split; auto.
  intros Hbare.
  destruct (loop_total v (entries cookie) ([], 0%N) Hbare)
    as (tr & [t n] & Hl).
  exact (proj2 (run_missing_ct0 _ _ c _ _ _ Hl (Hfalsy _ _ _ Hl))).
Qed.

(** C3.  For every cookie string none of whose entries reads [ct0=...],
    either script produces no bundle, saves no file, attempts no
    clipboard write, and reports an error: the missing-[ct0] block, or,
    when a bare name made the loop throw, the block of the [catch]; it is
    the missing-[ct0] block whenever no entry is such a bare name. *)
Theorem no_ct0_no_file (v : variant) (cookie : jsstring)
    (c : option clipboard) :
  (forall e x, In e (entries cookie) -> ~ is_entry ct0 x e) ->
  bundle v cookie = None /\
  saved (run v (Browser cookie c)) = [] /\
  clipboard_texts (run v (Browser cookie c)) = [] /\
  (errors (run v (Browser cookie c)) = missing_ct0_errors \/
   errors (run v (Browser cookie c)) = extraction_failed_errors) /\
  (no_bare_names v cookie ->
   errors (run v (Browser cookie c)) = missing_ct0_errors).
Proof.
  intros Hno; apply run_falsy_ct0.
  intros tr t n Hl.
  pose proof (loop_without_ct0 _ _ _ _ _ Hl Hno) as Hg; simpl in Hg.
  rewrite Hg; reflexivity.
Qed.

Lemma no_ct0_no_file_witness :
  bundle Strict_variant (lit "lang=en; auth_token=xyz789") = None /\
  saved (run Strict_variant (no_clipboard (lit "lang=en; auth_token=xyz789")))
    = [] /\
  errors (run Strict_variant
            (no_clipboard (lit "lang=en; auth_token=xyz789")))
    = missing_ct0_errors.
Proof.
  destruct (no_ct0_no_file Strict_variant
              (lit "lang=en; auth_token=xyz789") None)
    as (Hb & Hs & _ & _ & He).
  - intros e x [<-|[<-|[]]]; discriminate.
  - split; [exact Hb | split; [exact Hs|]].
    apply He.
    intros e [<-|[<-|[]]]; (split; [|intros _]); intros H;
      vm_compute in H; discriminate H.
Defined.

(** C9, as it is stated, fails: an entry [ct0=] does not stop the script
    when a later [ct0] cookie has a value, since the later cookie
    overwrites the empty one; on [ct0=; ct0=abc] the file is saved and no
    error is printed.  And where the empty entry is the last one, a bare
    name before it makes the error the block of the [catch], not the
    missing-[ct0] one. *)
Lemma empty_ct0_entry_claim_fails :
  ~ (forall (v : variant) (cookie : jsstring) (c : option clipboard),
       has_entry ct0 [] cookie ->
       saved (run v (Browser cookie c)) = [] /\
       errors (run v (Browser cookie c)) = missing_ct0_errors) /\
  (has_entry ct0 [] (lit "ct0; ct0=") /\
   errors (run Tolerant_variant (no_clipboard (lit "ct0; ct0=")))
     = extraction_failed_errors).
Proof.
  split.
  - intros H.
    assert (He : has_entry ct0 [] (lit "ct0=; ct0=abc"))
      by (exists (lit "ct0="); split; [left; reflexivity | reflexivity]).
    destruct (H Tolerant_variant (lit "ct0=; ct0=abc") None He) as [Hs _].
    rewrite saved_run in Hs; discriminate Hs.
  - split; [|reflexivity].
    exists (lit " ct0="); split; [right; left; reflexivity | reflexivity].
Qed.

(** C9, amended.  When the last entry that reads [ct0=...] is [ct0=] with
    nothing after the sign, either script does what it does without a
    [ct0] cookie: no bundle, no file, no clipboard write, and an error,
    which is the missing-[ct0] block when no entry is a bare [ct0] (or,
    in the strict script, a bare [auth_token]), and the block of the
    [catch] when one is, since [value.substring] then throws. *)
Theorem empty_ct0_is_missing (v : variant) (cookie : jsstring)
    (c : option clipboard) (pre post : list jsstring) (e : jsstring) :
  entries cookie = pre ++ e :: post ->
  is_entry ct0 [] e ->
  (forall e' y, In e' post -> ~ is_entry ct0 y e') ->
  bundle v cookie = None /\
  saved (run v (Browser cookie c)) = [] /\
  clipboard_texts (run v (Browser cookie c)) = [] /\
  (errors (run v (Browser cookie c)) = missing_ct0_errors \/
   errors (run v (Browser cookie c)) = extraction_failed_errors) /\
  (no_bare_names v cookie ->
   errors (run v (Browser cookie c)) = missing_ct0_errors) /\
  (forall e' name,
     In e' (entries cookie) -> captured v name -> trim e' = name ->
     errors (run v (Browser cookie c)) = extraction_failed_errors).
Proof.
  intros He Hx Hpost.
  cut (bundle v cookie = None /\
       saved (run v (Browser cookie c)) = [] /\
       clipboard_texts (run v (Browser cookie c)) = [] /\
       (errors (run v (Browser cookie c)) = missing_ct0_errors \/
        errors (run v (Browser cookie c)) = extraction_failed_errors) /\
       (no_bare_names v cookie ->
        errors (run v (Browser cookie c)) = missing_ct0_errors)).
  { intros (H1 & H2 & H3 & H4 & H5); repeat split; auto.
    intros e' name Hin Hcap Hbare.
    destruct (loop_bare_throws v _ ([], 0%N) _ _ Hin Hcap Hbare) as [tr Hl].
    exact (proj2 (run_throw _ _ c _ _ Hl)). }
  apply run_falsy_ct0.
  intros tr t n Hl.
  assert (Hcap : captured v ct0) by (left; reflexivity).
  destruct (is_entry_read _ _ _ Hx ct0_no_equals (fun H => H))
    as [Hname Hval].
  assert (Hpost' : forall e', In e' post -> cookie_name e' <> Str ct0).
  { intros e' Hin Hn.
    assert (Hin' : In e' (entries cookie))
      by (rewrite He; apply in_or_app; right; right; exact Hin).
    destruct (loop_named_is_entry _ _ _ _ _ _ _ Hl Hin' Hcap Hn) as [y Hy].
    exact (Hpost e' y Hin Hy). }
  rewrite He in Hl.
  destruct (loop_last_named _ _ _ _ _ _ _ _ Hl Hcap Hname Hpost')
    as (_ & Hg & _); simpl in Hg.
  rewrite Hg, Hval; reflexivity.
Qed.

Lemma empty_ct0_is_missing_witness :
  bundle Strict_variant (lit "auth_token=xyz789; ct0=") = None /\
  saved (run Strict_variant (no_clipboard (lit "auth_token=xyz789; ct0=")))
    = [] /\
  errors (run Strict_variant (no_clipboard (lit "auth_token=xyz789; ct0=")))
    = missing_ct0_errors.
Proof.
  destruct (empty_ct0_is_missing Strict_variant
              (lit "auth_token=xyz789; ct0=") None
              [lit "auth_token=xyz789"] [] (lit " ct0="))
    as (Hb & Hs & _ & _ & He & _).
  - reflexivity.
  - reflexivity.
  - intros e' y [].
  - split; [exact Hb | split; [exact Hs|]].
    apply He.
    intros e [<-|[<-|[]]]; (split; [|intros _]); intros H;
      vm_compute in H; discriminate H.
Defined.

(** Without a bundle the clipboard is never consulted. *)
Lemma run_without_bundle (v : variant) (cookie : jsstring)
    (c : option clipboard) :
  bundle v cookie = None ->
  run v (Browser cookie c) = run v (no_clipboard cookie).
Proof.
  unfold no_clipboard, bundle; rewrite !run_unfold.
  destruct (collect v cookie) as [tr [[b n]| |e]];
    [discriminate | reflexivity | reflexivity].
Qed.

(** C8.  Whenever a bundle is produced, the clipboard changes neither
    the file nor the absence of errors: the run is the run of a browser
    without a clipboard, in which the file is saved and nothing is
    copied, followed by what the clipboard adds, which is nothing, or the
    write and one logged line, the notice when the write is rejected. *)
Theorem clipboard_is_best_effort (v : variant) (cookie : jsstring)
    (c : option clipboard) (b : object) :
  bundle v cookie = Some b ->
  saved (run v (Browser cookie c)) =
    [File config_json application_json (JSON_stringify b)] /\
  errors (run v (Browser cookie c)) = [] /\
  In (Save (File config_json application_json (JSON_stringify b)))
     (run v (no_clipboard cookie)) /\
  clipboard_texts (run v (no_clipboard cookie)) = [] /\
  run v (Browser cookie c) =
    run v (no_clipboard cookie) ++
    match c with
    | Some (Clipboard (Some write)) =>
        [ClipboardWrite (JSON_stringify b);
         Log (match write (JSON_stringify b) with
              | Fulfilled => CopiedToClipboard
              | Rejected => CouldNotCopy
              end)]
    | _ => []
    end.
Proof.
  intros H.
  split; [rewrite saved_run, H; reflexivity|].
  split; [exact (errors_run_some _ _ c _ H)|].
  split; [|split].
  - unfold no_clipboard; rewrite run_unfold.
    destruct (bundle_some _ _ _ H) as (tr & n & ->).
    right; right; apply in_or_app; right.
    apply in_or_app; left.
    unfold delivery; apply in_or_app; right.
    right; right; left; reflexivity.
  - unfold no_clipboard; rewrite clipboard_run, H; reflexivity.
  - unfold no_clipboard; rewrite !run_unfold.
    destruct (bundle_some _ _ _ H) as (tr & n & ->).
    change (clipboard_events None (JSON_stringify b)) with (@nil event).
    rewrite app_nil_r.
    change (?a :: ?b :: ?x ++ ?y ++ ?z = (?a :: ?b :: ?x ++ ?y) ++ ?w)
      with (a :: b :: x ++ y ++ z = a :: b :: (x ++ y) ++ w).
    rewrite <- app_assoc; reflexivity.
Qed.

Lemma clipboard_is_best_effort_witness :
  errors (run Tolerant_variant
            (Browser (lit "ct0=abc123")
               (Some (Clipboard (Some (fun _ => Rejected)))))) = [] /\
  run Tolerant_variant
    (Browser (lit "ct0=abc123")
       (Some (Clipboard (Some (fun _ => Rejected))))) =
  run Tolerant_variant (no_clipboard (lit "ct0=abc123")) ++
  [ClipboardWrite
     (JSON_stringify
        [(ct0, Str (lit "abc123")); (csrf_token, Str (lit "abc123"));
         (bearer_token, Str BEARER)]);
   Log CouldNotCopy].
Proof.
  destruct (clipboard_is_best_effort Tolerant_variant (lit "ct0=abc123")
              (Some (Clipboard (Some (fun _ => Rejected))))
              [(ct0, Str (lit "abc123")); (csrf_token, Str (lit "abc123"));
               (bearer_token, Str BEARER)] eq_refl)
    as (_ & He & _ & _ & Hr).
  split; [exact He | exact Hr].
Defined.

(** C6.  On the cookies [ct0=abc123; auth_token=xyz789] the strict script
    builds the object with exactly the four bindings [ct0], [csrf_token],
    [auth_token] and [bearer_token], in this order, and saves it as
    [config.json] with the text of [example_config]. *)
Theorem strict_example :
  bundle Strict_variant (lit "ct0=abc123; auth_token=xyz789") =
    Some [(ct0, Str (lit "abc123")); (csrf_token, Str (lit "abc123"));
          (auth_token, Str (lit "xyz789")); (bearer_token, Str BEARER)] /\
  forall c,
    saved (run Strict_variant
             (Browser (lit "ct0=abc123; auth_token=xyz789") c)) =
    [File config_json application_json example_config] /\
    errors (run Strict_variant
              (Browser (lit "ct0=abc123; auth_token=xyz789") c)) = [].
Proof.
  split; [reflexivity|].
  intros c; split.
  - rewrite saved_run; reflexivity.
  - apply errors_run_some with
      (b := [(ct0, Str (lit "abc123")); (csrf_token, Str (lit "abc123"));
             (auth_token, Str (lit "xyz789")); (bearer_token, Str BEARER)]).
    reflexivity.
Qed.

(** C7.  On the cookie [ct0=abc123] alone the tolerant script succeeds
    with a bundle that has no [auth_token] property, and the strict script
    reports the missing [auth_token] and saves nothing. *)
Theorem ct0_alone :
  (bundle Tolerant_variant (lit "ct0=abc123") =
     Some [(ct0, Str (lit "abc123")); (csrf_token, Str (lit "abc123"));
           (bearer_token, Str BEARER)] /\
   has auth_token
     [(ct0, Str (lit "abc123")); (csrf_token, Str (lit "abc123"));
      (bearer_token, Str BEARER)] = false /\
   forall c,
     saved (run Tolerant_variant (Browser (lit "ct0=abc123") c)) =
       [File config_json application_json
          (JSON_stringify
             [(ct0, Str (lit "abc123")); (csrf_token, Str (lit "abc123"));
              (bearer_token, Str BEARER)])] /\
     errors (run Tolerant_variant (Browser (lit "ct0=abc123") c)) = []) /\
  (bundle Strict_variant (lit "ct0=abc123") = None /\
   forall c,
     saved (run Strict_variant (Browser (lit "ct0=abc123") c)) = [] /\
     errors (run Strict_variant (Browser (lit "ct0=abc123") c)) =
       missing_auth_token_errors).
Proof.
  split; [split; [reflexivity | split; [reflexivity|]] | split; [reflexivity|]];
    intros c; split.
  - rewrite saved_run; reflexivity.
  - apply errors_run_some with
      (b := [(ct0, Str (lit "abc123")); (csrf_token, Str (lit "abc123"));
             (bearer_token, Str BEARER)]).
    reflexivity.
  - rewrite saved_run; reflexivity.
  - rewrite run_unfold; reflexivity.
Qed.

(** The specification's reading of an entry [name=x]: the value is [x],
    whole; the callback reads the same when [x] holds no [=]. *)
Lemma after_first_app (sep : char16) (a b : jsstring) :
  ~ In sep a -> after_first sep (a ++ sep :: b) = Str b.
Proof.
  induction a as [|c a IH]; simpl; intros H.
  - rewrite N.eqb_refl; reflexivity.
  - destruct (N.eqb c sep) eqn:E.
    + apply N.eqb_eq in E; tauto.
    + apply IH; tauto.
Qed.

Lemma spec_value_of_entry (name x e : jsstring) :
  is_entry name x e -> ~ In equals_sign name -> spec_cookie_value e = Str x.
Proof.
  unfold is_entry, spec_cookie_value; intros -> Hn.
  apply after_first_app; assumption.
Qed.

Lemma cookie_value_agrees (name x e : jsstring) :
  is_entry name x e -> ~ In equals_sign name -> ~ In equals_sign x ->
  cookie_value e = spec_cookie_value e.
Proof.
  intros He Hn Hx.
  rewrite (spec_value_of_entry _ _ _ He Hn).
  exact (proj2 (is_entry_read _ _ _ He Hn Hx)).
Qed.

(** C2, at a value that holds [=].  The entry [ct0=v1=v2] has the value
    [v1=v2], all that follows the first [=]; the callback splits at every
    [=] and keeps the second piece, so both scripts store [v1]. *)
Theorem value_cut_at_second_equals :
  spec_cookie_value (lit "ct0=v1=v2") = Str (lit "v1=v2") /\
  cookie_value (lit "ct0=v1=v2") = Str (lit "v1") /\
  bundle Tolerant_variant (lit "ct0=v1=v2") =
    Some [(ct0, Str (lit "v1")); (csrf_token, Str (lit "v1"));
          (bearer_token, Str BEARER)] /\
  bundle Strict_variant (lit "ct0=v1=v2; auth_token=t1=t2") =
    Some [(ct0, Str (lit "v1")); (csrf_token, Str (lit "v1"));
          (auth_token, Str (lit "t1")); (bearer_token, Str BEARER)].
Proof. repeat split; reflexivity. Qed.

(** * Further properties of the scripts *)

(** ** When a run succeeds, and the other ways it fails *)

(** The object passes the validation when its fields are truthy. *)
Lemma bundle_intro (v : variant) (cookie : jsstring) (tr : trace)
    (t : object) (n : N) :
  forEach (callback v) (entries cookie) ([], 0%N) = (tr, Normal (t, n)) ->
  truthy (get ct0 t) = true ->
  (captures_auth v = true -> truthy (get auth_token t) = true) ->
  collect v cookie =
    (tr ++ [Log (bearer_line v)],
     Normal (set bearer_token (Str BEARER) t, (n + 1)%N)) /\
  bundle v cookie = Some (set bearer_token (Str BEARER) t).
Proof.
  intros Hl Hc Ha.
  assert (E : collect v cookie =
              (tr ++ [Log (bearer_line v)],
               Normal (set bearer_token (Str BEARER) t, (n + 1)%N))).
  { rewrite collect_unfold, Hl; cbv zeta.
    rewrite !get_after_bearer by distinct_keys.
    rewrite Hc; simpl negb; cbv iota.
    destruct (captures_auth v); [rewrite Ha by reflexivity|]; reflexivity. }
  split; [exact E | unfold bundle; rewrite E; reflexivity].
Qed.

(** The strict script with a truthy [ct0] and a falsy [auth_token]. *)
Lemma run_missing_auth (cookie : jsstring) (c : option clipboard)
    (tr : trace) (t : object) (n : N) :
  forEach (callback Strict_variant) (entries cookie) ([], 0%N)
    = (tr, Normal (t, n)) ->
  truthy (get ct0 t) = true ->
  truthy (get auth_token t) = false ->
  bundle Strict_variant cookie = None /\
  saved (run Strict_variant (Browser cookie c)) = [] /\
  clipboard_texts (run Strict_variant (Browser cookie c)) = [] /\
  errors (run Strict_variant (Browser cookie c)) = missing_auth_token_errors.
Proof.
  intros Hl Hc Ha.
  assert (E : collect Strict_variant cookie =
              (tr ++ Log FoundBearer
                  :: List.map Error missing_auth_token_errors, Return)).
  { rewrite collect_unfold, Hl; cbv zeta.
    rewrite !get_after_bearer by distinct_keys.
    rewrite Hc, Ha; reflexivity. }
  assert (Hb : bundle Strict_variant cookie = None)
    by (unfold bundle; rewrite E; reflexivity).
  destruct (loop_quiet _ _ _ _ _ Hl) as [_ [He _]].
  rewrite saved_run, clipboard_run, Hb; repeat split.
  rewrite run_unfold, E.
  change (errors (Log Banner :: Log Rule :: ?x)) with (errors x).
  rewrite errors_app, He; reflexivity.
Qed.

(** Cookies none of which reads [auth_token=...] leave [auth_token] as it
    was. *)
Lemma loop_without_auth (xs : list jsstring) (st st' : vars) (tr : trace) :
  forEach (callback Strict_variant) xs st = (tr, Normal st') ->
  (forall e y, In e xs -> ~ is_entry auth_token y e) ->
  get auth_token (fst st') = get auth_token (fst st).
Proof.
  intros H Hno.
  apply (loop_frame_auth _ _ _ _ _ H).
  intros e Hin Hn.
  assert (Hcap : captured Strict_variant auth_token)
    by (right; split; reflexivity).
  destruct (loop_named_is_entry _ _ _ _ _ _ _ H Hin Hcap Hn) as [y Hy].
  exact (Hno e y Hin Hy).
Qed.

(** In a loop that ended normally, the field of a captured name is what
    the last entry [name=x] says, when nothing reads [name=...] after it
    and [x] holds no [=]. *)
Lemma loop_last_entry (v : variant) (cookie : jsstring)
    (pre post : list jsstring) (e name x : jsstring) (tr : trace)
    (t : object) (n : N) :
  forEach (callback v) (entries cookie) ([], 0%N) = (tr, Normal (t, n)) ->
  entries cookie = pre ++ e :: post ->
  captured v name -> is_entry name x e -> ~ In equals_sign x ->
  (forall e' y, In e' post -> ~ is_entry name y e') ->
  get name t = Str x /\ (name = ct0 -> get csrf_token t = Str x).
Proof.
  intros Hl He Hcap Hx Hno Hpost.
  destruct (is_entry_read _ _ _ Hx (captured_no_equals _ _ Hcap) Hno)
    as [Hname Hval].
  assert (Hpost' : forall e', In e' post -> cookie_name e' <> Str name).
  { intros e' Hin Hn.
    assert (Hin' : In e' (entries cookie))
      by (rewrite He; apply in_or_app; right; right; exact Hin).
    destruct (loop_named_is_entry _ _ _ _ _ _ _ Hl Hin' Hcap Hn) as [y Hy].
    exact (Hpost e' y Hin Hy). }
  rewrite He in Hl.
  destruct (loop_last_named _ _ _ _ _ _ _ _ Hl Hcap Hname Hpost')
    as (_ & Hg & Hc); simpl in Hg, Hc.
  rewrite Hval in Hg, Hc; auto.
Qed.

Lemma truthy_nonempty (x : jsstring) : x <> [] -> truthy (Str x) = true.
Proof. destruct x; [contradiction | reflexivity]. Qed.

(** ** The shape of the object *)

Ltac layout_as a' y' :=
  first
    [ exists true, a', y'; split; [reflexivity | solve [intuition congruence]]
    | exists false, a', y'; split;
      [reflexivity | solve [intuition congruence]] ].

(** The callback keeps [tokens] in one of its shapes. *)
Lemma callback_layout (v : variant) (c : jsstring) (auth_first : bool)
    (a y : option jsstring) (n n' : N) (tr : trace) (t' : object) :
  (captures_auth v = false -> y = None) ->
  callback v c (layout auth_first a y, n) = (tr, Normal (t', n')) ->
  exists auth_first' a' y',
    t' = layout auth_first' a' y' /\ (captures_auth v = false -> y' = None).
Proof.
  intros Hy; rewrite callback_step; step_cases c v;
    intros H; inversion H; subst; clear H.
  1: { destruct auth_first, a as [a0|], y as [z|];
         first [ layout_as (Some s) (Some z)
               | layout_as (Some s) (@None jsstring) ]. }
  1: { destruct auth_first, a as [a0|], y as [z|];
         first [ layout_as (Some a0) (Some s)
               | layout_as (@None jsstring) (Some s) ]. }
  all: exists auth_first, a, y; split; [reflexivity | assumption].
Qed.

Lemma loop_layout (v : variant) (xs : list jsstring) (n n' : N) (tr : trace)
    (t' : object) :
  forEach (callback v) xs ([], n) = (tr, Normal (t', n')) ->
  exists auth_first a y,
    t' = layout auth_first a y /\ (captures_auth v = false -> y = None).
Proof.
  intros H.
  refine (@forEach_invariant _ (callback v)
            (fun s => exists auth_first a y,
                        fst s = layout auth_first a y /\
                        (captures_auth v = false -> y = None))
            (fun _ => True) _ xs ([], n) tr (t', n') _ _ H).
  - intros x [t m] tr1 [t1 m1] _ (fa & a & y & Ht & Hy) E; simpl in *; subst t.
    exact (callback_layout _ _ _ _ _ _ _ _ _ Hy E).
  - apply Forall_forall; auto.
  - exists false, None, None; split; [reflexivity | auto].
Qed.

(** The bundle, property by property. *)
Lemma bundle_layout (v : variant) (cookie : jsstring) (b : object) :
  bundle v cookie = Some b ->
  match v with
  | Tolerant_variant =>
      exists x, x <> [] /\
        b = [(ct0, Str x); (csrf_token, Str x); (bearer_token, Str BEARER)]
  | Strict_variant =>
      exists x y, x <> [] /\ y <> [] /\
        (b = [(ct0, Str x); (csrf_token, Str x); (auth_token, Str y);
              (bearer_token, Str BEARER)] \/
         b = [(auth_token, Str y); (ct0, Str x); (csrf_token, Str x);
              (bearer_token, Str BEARER)])
  end.
Proof.
  intros H.
  destruct (bundle_loop _ _ _ H) as (tr & t & n & Hl & -> & Hc & Ha).
  destruct (loop_layout _ _ _ _ _ _ Hl) as (fa & a & y & -> & Hy).
  destruct v; simpl in Ha, Hy.
  - specialize (Ha eq_refl).
    destruct fa, a as [[|c0 x]|], y as [[|c1 z]|]; try discriminate.
    + exists (c0 :: x), (c1 :: z); repeat split; try discriminate.
      right; reflexivity.
    + exists (c0 :: x), (c1 :: z); repeat split; try discriminate.
      left; reflexivity.
  - rewrite (Hy eq_refl) in *.
    destruct fa, a as [[|c0 x]|]; try discriminate;
      exists (c0 :: x); split; try discriminate; reflexivity.
Qed.

Lemma forEach_cons {S : Type} (f : jsstring -> S -> M S) (x : jsstring)
    (xs : list jsstring) (st : S) :
  forEach f (x :: xs) st = bind (f x st) (forEach f xs).
Proof. reflexivity. Qed.

(** Writing the pair, or [auth_token], into a shape. *)
Lemma set_pair_layout (auth_first : bool) (a y : option jsstring)
    (s : jsstring) :
  set csrf_token (Str s) (set ct0 (Str s) (layout auth_first a y)) =
  layout (match y with None => false | Some _ => order_after auth_first a y []
          end) (Some s) y.
Proof. destruct auth_first, a, y; reflexivity. Qed.

Lemma set_auth_layout (auth_first : bool) (a y : option jsstring)
    (s : jsstring) :
  set auth_token (Str s) (layout auth_first a y) =
  layout (match a with None => true | Some _ => order_after auth_first a y []
          end) a (Some s).
Proof. destruct auth_first, a, y; reflexivity. Qed.

(** The strict loop, with the order in which the properties end up. *)
Lemma strict_loop_layout (xs : list jsstring) (auth_first : bool)
    (a y : option jsstring) (n n' : N) (tr : trace) (t' : object) :
  forEach (callback Strict_variant) xs (layout auth_first a y, n)
    = (tr, Normal (t', n')) ->
  exists a' y', t' = layout (order_after auth_first a y xs) a' y'.
Proof.
  revert auth_first a y n tr; induction xs as [|x xs IH];
    intros fa a y n tr H.
  - simpl in H; inversion H; subst.
    exists a, y; destruct fa, a, y; reflexivity.
  - rewrite forEach_cons, callback_step in H; unfold bind in H.
    simpl captures_auth in H; simpl andb in H; cbv iota in H.
    destruct (strict_eq (cookie_name x) ct0) eqn:Hc.
    + destruct (cookie_value x) as [|s]; [discriminate|].
      rewrite set_pair_layout in H.
      match type of H with
      | context [forEach _ xs (layout ?f ?a1 ?y1, ?m)] =>
          destruct (forEach (callback Strict_variant) xs (layout f a1 y1, m))
            as [t1 [[t2 n2]| |e]] eqn:E; try discriminate
      end.
      injection H as _ <- <-.
      destruct (IH _ _ _ _ _ E) as (a' & y' & ->).
      exists a', y'; f_equal.
      unfold order_after; simpl auth_comes_first; unfold named; rewrite Hc.
      destruct fa, a, y; reflexivity.
    + destruct (strict_eq (cookie_name x) auth_token) eqn:Ha.
      * destruct (cookie_value x) as [|s]; [discriminate|].
        rewrite set_auth_layout in H.
        match type of H with
        | context [forEach _ xs (layout ?f ?a1 ?y1, ?m)] =>
            destruct (forEach (callback Strict_variant) xs
                        (layout f a1 y1, m))
              as [t1 [[t2 n2]| |e]] eqn:E; try discriminate
        end.
        injection H as _ <- <-.
        destruct (IH _ _ _ _ _ E) as (a' & y' & ->).
        exists a', y'; f_equal.
        unfold order_after; simpl auth_comes_first; unfold named;
          rewrite Hc, Ha.
        destruct fa, a, y; reflexivity.
      * destruct (forEach (callback Strict_variant) xs (layout fa a y, n))
          as [t1 [[t2 n2]| |e]] eqn:E; try discriminate.
        injection H as _ <- <-.
        destruct (IH _ _ _ _ _ E) as (a' & y' & ->).
        exists a', y'; f_equal.
        unfold order_after; simpl auth_comes_first; unfold named;
          rewrite Hc, Ha; reflexivity.
Qed.

(** The strict bundle, with its order read off the cookie string. *)
Lemma strict_bundle_layout (cookie : jsstring) (b : object) :
  bundle Strict_variant cookie = Some b ->
  exists x y, x <> [] /\ y <> [] /\
    get ct0 b = Str x /\ get auth_token b = Str y /\
    b = if auth_comes_first (entries cookie)
        then [(auth_token, Str y); (ct0, Str x); (csrf_token, Str x);
              (bearer_token, Str BEARER)]
        else [(ct0, Str x); (csrf_token, Str x); (auth_token, Str y);
              (bearer_token, Str BEARER)].
Proof.
  intros H.
  destruct (bundle_loop _ _ _ H) as (tr & t & n & Hl & -> & Hc & Ha).
  specialize (Ha eq_refl).
  change (@nil (jsstring * value)) with (layout false None None) in Hl.
  destruct (strict_loop_layout _ _ _ _ _ _ _ _ Hl) as (a & y & ->).
  unfold order_after in *.
  destruct (auth_comes_first (entries cookie)),
    a as [[|c0 x]|], y as [[|c1 z]|]; try discriminate;
    exists (c0 :: x), (c1 :: z); repeat split; discriminate.
Qed.

(** X1.  The tolerant script succeeds whenever the last entry that reads
    [ct0=...] is [ct0=x] with [x] not empty and free of [=], and no entry
    is the bare word [ct0]: the bundle is the three properties [ct0],
    [csrf_token], [bearer_token], the file is saved and no error is
    printed. *)
Theorem tolerant_succeeds (cookie : jsstring) (c : option clipboard)
    (pre post : list jsstring) (e x : jsstring) :
  entries cookie = pre ++ e :: post ->
  is_entry ct0 x e -> ~ In equals_sign x -> x <> [] ->
  (forall e' y, In e' post -> ~ is_entry ct0 y e') ->
  no_bare_names Tolerant_variant cookie ->
  bundle Tolerant_variant cookie =
    Some [(ct0, Str x); (csrf_token, Str x); (bearer_token, Str BEARER)] /\
  saved (run Tolerant_variant (Browser cookie c)) =
    [File config_json application_json
       (JSON_stringify
          [(ct0, Str x); (csrf_token, Str x); (bearer_token, Str BEARER)])] /\
  errors (run Tolerant_variant (Browser cookie c)) = [].
Proof.
  intros He Hx Hno Hne Hpost Hbare.
  destruct (loop_total Tolerant_variant (entries cookie) ([], 0%N) Hbare)
    as (tr & [t n] & Hl).
  assert (Hcap : captured Tolerant_variant ct0) by (left; reflexivity).
  destruct (loop_last_entry _ _ _ _ _ _ _ _ _ _ Hl He Hcap Hx Hno Hpost)
    as [Hg _].
  assert (Ht : truthy (get ct0 t) = true)
    by (rewrite Hg; apply truthy_nonempty; assumption).
  destruct (bundle_intro Tolerant_variant _ _ _ _ Hl Ht) as [_ Hb];
    [discriminate|].
  destruct (bundle_layout _ _ _ Hb) as (x' & _ & Hshape).
  assert (Hx' : x' = x).
  { assert (Hg' : get ct0 (set bearer_token (Str BEARER) t) = Str x)
      by (rewrite get_after_bearer by distinct_keys; exact Hg).
    rewrite Hshape in Hg'; simpl in Hg'; congruence. }
  subst x'; rewrite Hshape in Hb.
  split; [exact Hb|].
  split; [rewrite saved_run, Hb; reflexivity|].
  exact (errors_run_some _ _ c _ Hb).
Qed.

Lemma tolerant_succeeds_witness :
  bundle Tolerant_variant (lit "lang=en; ct0=abc123; auth_token=xyz789") =
    Some [(ct0, Str (lit "abc123")); (csrf_token, Str (lit "abc123"));
          (bearer_token, Str BEARER)] /\
  errors (run Tolerant_variant
            (no_clipboard (lit "lang=en; ct0=abc123; auth_token=xyz789")))
    = [].
Proof.
  destruct (tolerant_succeeds (lit "lang=en; ct0=abc123; auth_token=xyz789")
              None [lit "lang=en"] [lit " auth_token=xyz789"]
              (lit " ct0=abc123") (lit "abc123"))
    as (Hb & _ & He).
  - reflexivity.
  - reflexivity.
  - simpl; intuition discriminate.
  - discriminate.
  - intros e' y [<-|[]] H; vm_compute in H; discriminate H.
  - intros e [<-|[<-|[<-|[]]]]; (split; [|intros _]); intros H;
      vm_compute in H; discriminate H.
  - split; [exact Hb | exact He].
Defined.

(** X2.  The strict script succeeds whenever, besides, the last entry
    that reads [auth_token=...] is [auth_token=y] with [y] not empty and
    free of [=], and no entry is the bare word [auth_token]: the bundle
    holds [x] under [ct0] and [csrf_token], [y] under [auth_token] and the
    constant under [bearer_token].  [auth_token] is the first property
    when, of the cookies named [ct0] or [auth_token], the first in the
    string is an [auth_token] cookie, and the third when it is a [ct0]
    cookie. *)
Theorem strict_succeeds (cookie : jsstring) (c : option clipboard)
    (pre post pre' post' : list jsstring) (e x e' y : jsstring) :
  entries cookie = pre ++ e :: post ->
  is_entry ct0 x e -> ~ In equals_sign x -> x <> [] ->
  (forall e0 z, In e0 post -> ~ is_entry ct0 z e0) ->
  entries cookie = pre' ++ e' :: post' ->
  is_entry auth_token y e' -> ~ In equals_sign y -> y <> [] ->
  (forall e0 z, In e0 post' -> ~ is_entry auth_token z e0) ->
  no_bare_names Strict_variant cookie ->
  exists b,
    b = (if auth_comes_first (entries cookie)
         then [(auth_token, Str y); (ct0, Str x); (csrf_token, Str x);
               (bearer_token, Str BEARER)]
         else [(ct0, Str x); (csrf_token, Str x); (auth_token, Str y);
               (bearer_token, Str BEARER)]) /\
    bundle Strict_variant cookie = Some b /\
    saved (run Strict_variant (Browser cookie c)) =
      [File config_json application_json (JSON_stringify b)] /\
    errors (run Strict_variant (Browser cookie c)) = [].
Proof.
  intros He Hx Hno Hne Hpost He' Hy Hno' Hne' Hpost' Hbare.
  destruct (loop_total Strict_variant (entries cookie) ([], 0%N) Hbare)
    as (tr & [t n] & Hl).
  assert (Hcap : captured Strict_variant ct0) by (left; reflexivity).
  assert (Hcap' : captured Strict_variant auth_token)
    by (right; split; reflexivity).
  destruct (loop_last_entry _ _ _ _ _ _ _ _ _ _ Hl He Hcap Hx Hno Hpost)
    as [Hg _].
  destruct (loop_last_entry _ _ _ _ _ _ _ _ _ _ Hl He' Hcap' Hy Hno' Hpost')
    as [Hg' _].
  assert (Ht : truthy (get ct0 t) = true)
    by (rewrite Hg; apply truthy_nonempty; assumption).
  assert (Ht' : truthy (get auth_token t) = true)
    by (rewrite Hg'; apply truthy_nonempty; assumption).
  destruct (bundle_intro Strict_variant _ _ _ _ Hl Ht (fun _ => Ht'))
    as [_ Hb].
  exists (set bearer_token (Str BEARER) t).
  split.
  - destruct (strict_bundle_layout _ _ Hb)
      as (x0 & y0 & _ & _ & G & G' & Hshape).
    rewrite get_after_bearer in G, G' by distinct_keys.
    assert (x0 = x) by congruence; assert (y0 = y) by congruence.
    subst x0 y0; exact Hshape.
  - split; [exact Hb|].
    split; [rewrite saved_run, Hb; reflexivity|].
    exact (errors_run_some _ _ c _ Hb).
Qed.

Lemma strict_succeeds_witness :
  bundle Strict_variant (lit "auth_token=xyz789; ct0=abc123") =
    Some [(auth_token, Str (lit "xyz789")); (ct0, Str (lit "abc123"));
          (csrf_token, Str (lit "abc123")); (bearer_token, Str BEARER)] /\
  errors (run Strict_variant
            (no_clipboard (lit "auth_token=xyz789; ct0=abc123"))) = [].
Proof.
  destruct (strict_succeeds (lit "auth_token=xyz789; ct0=abc123") None
              [lit "auth_token=xyz789"] [] [] [lit " ct0=abc123"]
              (lit " ct0=abc123") (lit "abc123")
              (lit "auth_token=xyz789") (lit "xyz789"))
    as (b & Hs & Hb & _ & He).
  - reflexivity.
  - reflexivity.
  - simpl; intuition discriminate.
  - discriminate.
  - intros e0 z [].
  - reflexivity.
  - reflexivity.
  - simpl; intuition discriminate.
  - discriminate.
  - intros e0 z [<-|[]] H; vm_compute in H; discriminate H.
  - intros e0 [<-|[<-|[]]]; (split; [|intros _]); intros H;
      vm_compute in H; discriminate H.
  - split; [rewrite Hb, Hs; reflexivity | exact He].
Defined.

(** X3.  One entry that is the bare word [ct0] (or, in the strict script,
    [auth_token]) makes the run end in the [catch] block, whatever the
    other cookies are: no bundle, no file, no clipboard write, and the
    troubleshooting errors. *)
Theorem bare_name_fails (v : variant) (cookie : jsstring)
    (c : option clipboard) (e name : jsstring) :
  In e (entries cookie) -> captured v name -> trim e = name ->
  bundle v cookie = None /\
  saved (run v (Browser cookie c)) = [] /\
  clipboard_texts (run v (Browser cookie c)) = [] /\
  errors (run v (Browser cookie c)) = extraction_failed_errors.
Proof.
  intros Hin Hcap Hbare.
  destruct (loop_bare_throws v _ ([], 0%N) _ _ Hin Hcap Hbare) as [tr Hl].
  destruct (run_throw _ _ c _ _ Hl) as [Hb He].
  rewrite saved_run, clipboard_run, Hb; auto.
Qed.

Lemma bare_name_fails_witness :
  bundle Tolerant_variant (lit "ct0=abc123; ct0") = None /\
  saved (run Tolerant_variant (no_clipboard (lit "ct0=abc123; ct0"))) = [] /\
  clipboard_texts
    (run Tolerant_variant (no_clipboard (lit "ct0=abc123; ct0"))) = [] /\
  errors (run Tolerant_variant (no_clipboard (lit "ct0=abc123; ct0")))
    = extraction_failed_errors.
Proof.
  apply (bare_name_fails Tolerant_variant (lit "ct0=abc123; ct0") None
           (lit " ct0") ct0).
  - right; left; reflexivity.
  - left; reflexivity.
  - reflexivity.
Defined.

(** X4.  The strict script with a good [ct0] cookie and no entry that
    reads [auth_token=...] reports the missing [auth_token] and saves
    nothing. *)
Theorem strict_needs_auth_token (cookie : jsstring) (c : option clipboard)
    (pre post : list jsstring) (e x : jsstring) :
  entries cookie = pre ++ e :: post ->
  is_entry ct0 x e -> ~ In equals_sign x -> x <> [] ->
  (forall e' y, In e' post -> ~ is_entry ct0 y e') ->
  (forall e' y, In e' (entries cookie) -> ~ is_entry auth_token y e') ->
  no_bare_names Strict_variant cookie ->
  bundle Strict_variant cookie = None /\
  saved (run Strict_variant (Browser cookie c)) = [] /\
  clipboard_texts (run Strict_variant (Browser cookie c)) = [] /\
  errors (run Strict_variant (Browser cookie c)) = missing_auth_token_errors.
Proof.
  intros He Hx Hno Hne Hpost Hauth Hbare.
  destruct (loop_total Strict_variant (entries cookie) ([], 0%N) Hbare)
    as (tr & [t n] & Hl).
  assert (Hcap : captured Strict_variant ct0) by (left; reflexivity).
  destruct (loop_last_entry _ _ _ _ _ _ _ _ _ _ Hl He Hcap Hx Hno Hpost)
    as [Hg _].
  pose proof (loop_without_auth _ _ _ _ Hl Hauth) as Ha; simpl in Ha.
  apply (run_missing_auth _ c _ _ _ Hl).
  - rewrite Hg; apply truthy_nonempty; assumption.
  - rewrite Ha; reflexivity.
Qed.

Lemma strict_needs_auth_token_witness :
  bundle Strict_variant (lit "ct0=abc123; lang=en") = None /\
  saved (run Strict_variant (no_clipboard (lit "ct0=abc123; lang=en"))) = [] /\
  clipboard_texts
    (run Strict_variant (no_clipboard (lit "ct0=abc123; lang=en"))) = [] /\
  errors (run Strict_variant (no_clipboard (lit "ct0=abc123; lang=en")))
    = missing_auth_token_errors.
Proof.
  apply (strict_needs_auth_token (lit "ct0=abc123; lang=en") None
           [] [lit " lang=en"] (lit "ct0=abc123") (lit "abc123")).
  - reflexivity.
  - reflexivity.
  - simpl; intuition discriminate.
  - discriminate.
  - intros e' y [<-|[]] H; vm_compute in H; discriminate H.
  - intros e' y [<-|[<-|[]]] H; vm_compute in H; discriminate H.
  - intros e' [<-|[<-|[]]]; (split; [|intros _]); intros H;
      vm_compute in H; discriminate H.
Defined.



(** X6.  The properties of a bundle, in order.  The tolerant script
    writes exactly [ct0], [csrf_token], [bearer_token].  The strict one
    writes these and [auth_token], which is the first property when, of
    the cookies named [ct0] or [auth_token], the first in the string is an
    [auth_token] cookie, and the third otherwise.  [bearer_token] is
    always last, the two copies of the [ct0] value are adjacent, and every
    value is a string that is not empty. *)
Theorem bundle_properties (v : variant) (cookie : jsstring) (b : object) :
  bundle v cookie = Some b ->
  match v with
  | Tolerant_variant =>
      exists x, x <> [] /\
        b = [(ct0, Str x); (csrf_token, Str x); (bearer_token, Str BEARER)]
  | Strict_variant =>
      exists x y, x <> [] /\ y <> [] /\
        b = if auth_comes_first (entries cookie)
            then [(auth_token, Str y); (ct0, Str x); (csrf_token, Str x);
                  (bearer_token, Str BEARER)]
            else [(ct0, Str x); (csrf_token, Str x); (auth_token, Str y);
                  (bearer_token, Str BEARER)]
  end.
Proof.
  intros H; destruct v.
  - destruct (strict_bundle_layout _ _ H) as (x & y & Hx & Hy & _ & _ & Hs).
    exists x, y; auto.
  - exact (bundle_layout _ _ _ H).
Qed.

Lemma bundle_properties_witness :
  exists x y, x <> [] /\ y <> [] /\
    [(auth_token, Str (lit "t")); (ct0, Str (lit "c"));
     (csrf_token, Str (lit "c")); (bearer_token, Str BEARER)]
    = [(auth_token, Str y); (ct0, Str x); (csrf_token, Str x);
       (bearer_token, Str BEARER)].
Proof.
  apply (bundle_properties Strict_variant (lit "auth_token=t; lang=en; ct0=c")).
  reflexivity.
Defined.

(** ** Which cookies matter *)

Lemma bind_ret {A B : Type} (a : A) (f : A -> M B) : bind (ret a) f = f a.
Proof. unfold bind, ret; destruct (f a); reflexivity. Qed.

(** The callback sees a cookie only through its trimmed text. *)
Lemma callback_trim (v : variant) (c c' : jsstring) (st : vars) :
  trim c = trim c' -> callback v c st = callback v c' st.
Proof.
  intros H; destruct st as [t n]; rewrite !callback_step.
  unfold cookie_name, cookie_value; rewrite H; reflexivity.
Qed.

Lemma loop_trim (v : variant) (xs ys : list jsstring) (st : vars) :
  List.map trim xs = List.map trim ys ->
  forEach (callback v) xs st = forEach (callback v) ys st.
Proof.
  revert ys st; induction xs as [|x xs IH]; intros [|y ys] st H;
    try discriminate; [reflexivity|].
  simpl in H; injection H as Hx Hxs; simpl.
  rewrite (callback_trim v x y st Hx).
  unfold bind; destruct (callback v y st) as [t [st1| |e]]; try reflexivity.
  rewrite (IH ys st1 Hxs); reflexivity.
Qed.

(** On a cookie of another name the callback does nothing. *)
Lemma callback_irrelevant (v : variant) (c : jsstring) (st : vars) :
  relevant v c = false -> callback v c st = ret st.
Proof.
  unfold relevant, named; intros H; destruct st as [t n].
  apply orb_false_iff in H; destruct H as [H1 H2].
  rewrite callback_step, H1, H2; reflexivity.
Qed.

Lemma loop_filter (v : variant) (xs : list jsstring) (st : vars) :
  forEach (callback v) xs st =
  forEach (callback v) (filter (relevant v) xs) st.
Proof.
  revert st; induction xs as [|x xs IH]; intros st; simpl; [reflexivity|].
  destruct (relevant v x) eqn:E; simpl.
  - unfold bind; destruct (callback v x st) as [t [st1| |e]];
      try reflexivity.
    rewrite IH; reflexivity.
  - rewrite (callback_irrelevant _ _ _ E), bind_ret; apply IH.
Qed.

(** A run is decided by what the loop does. *)
Lemma run_of_loop (v : variant) (c1 c2 : jsstring) (c : option clipboard) :
  forEach (callback v) (entries c1) ([], 0%N) =
  forEach (callback v) (entries c2) ([], 0%N) ->
  run v (Browser c1 c) = run v (Browser c2 c) /\ bundle v c1 = bundle v c2.
Proof.
  intros H.
  assert (E : collect v c1 = collect v c2)
    by (rewrite !collect_unfold, H; reflexivity).
  unfold bundle; rewrite !run_unfold, E; auto.
Qed.

(** X7.  Cookies of other names are ignored, and so are the blanks around
    an entry: two cookie strings whose entries of captured names read the
    same, in the same order, give the same run, event by event, and the
    same bundle.  For the tolerant script [auth_token] is such another
    name. *)
Theorem other_cookies_are_ignored (v : variant) (c1 c2 : jsstring)
    (c : option clipboard) :
  List.map trim (filter (relevant v) (entries c1)) =
  List.map trim (filter (relevant v) (entries c2)) ->
  run v (Browser c1 c) = run v (Browser c2 c) /\ bundle v c1 = bundle v c2.
Proof.
  intros H; apply run_of_loop.
  rewrite (loop_filter v (entries c1)), (loop_filter v (entries c2)).
  apply loop_trim; exact H.
Qed.

Lemma other_cookies_are_ignored_witness :
  run Tolerant_variant
    (no_clipboard (lit "lang=en;   ct0=abc123 ; auth_token=xyz789")) =
  run Tolerant_variant (no_clipboard (lit "ct0=abc123")) /\
  bundle Tolerant_variant (lit "lang=en;   ct0=abc123 ; auth_token=xyz789") =
  bundle Tolerant_variant (lit "ct0=abc123").
Proof.
  apply (other_cookies_are_ignored Tolerant_variant
           (lit "lang=en;   ct0=abc123 ; auth_token=xyz789")
           (lit "ct0=abc123") None).
  reflexivity.
Defined.

(** ** The cookie string of a browser *)

Lemma split_prefix (sep : char16) (w s : jsstring) :
  ~ In sep w ->
  split sep (w ++ s) =
  match split sep s with
  | [] => [w]
  | p :: ps => (w ++ p) :: ps
  end.
Proof.
  intros Hw; induction w as [|c w IH]; simpl.
  - destruct (split sep s) eqn:E; [exfalso; exact (split_not_nil _ _ E)|].
    reflexivity.
  - destruct (N.eqb c sep) eqn:E.
    + apply N.eqb_eq in E; simpl in Hw; tauto.
    + rewrite IH by (simpl in Hw; tauto).
      destruct (split sep s); reflexivity.
Qed.

(** Joining pieces that hold no separator with the separator and a
    filler, and splitting again, gives the pieces back, the filler in
    front of all but the first. *)
Lemma split_join (sep : char16) (w p : jsstring) (ps : list jsstring) :
  ~ In sep w -> ~ In sep p -> Forall (fun q => ~ In sep q) ps ->
  split sep (join (sep :: w) (p :: ps)) = p :: List.map (app w) ps.
Proof.
  intros Hw; revert p; induction ps as [|q qs IH]; intros p Hp Hps.
  - simpl; apply split_none; assumption.
  - inversion Hps as [|? ? Hq Hqs]; subst.
    change (join (sep :: w) (p :: q :: qs))
      with (p ++ sep :: (w ++ join (sep :: w) (q :: qs))).
    rewrite split_app by assumption.
    rewrite split_prefix by assumption.
    rewrite (IH q Hq Hqs); reflexivity.
Qed.

(** X8.  A browser hands out its cookies as [e1; e2; ...], joined by a
    semicolon and a space.  When no cookie holds a semicolon, the entries
    the script gets by splitting are these cookies up to the blanks
    around them, so the loop over the cookie string is the loop over the
    cookies. *)
Theorem cookie_string_is_read_back (v : variant) (e : jsstring)
    (es : list jsstring) (st : vars) :
  (forall x, In x (e :: es) -> ~ In semicolon x) ->
  List.map trim (entries (join (lit "; ") (e :: es))) = List.map trim (e :: es)
  /\ forEach (callback v) (entries (join (lit "; ") (e :: es))) st =
     forEach (callback v) (e :: es) st.
Proof.
  intros H.
  assert (E : entries (join (lit "; ") (e :: es)) =
              e :: List.map (app (lit " ")) es).
  { unfold entries; change (lit "; ") with (semicolon :: lit " ").
    apply split_join.
    - unfold semicolon; simpl; intuition discriminate.
    - apply H; left; reflexivity.
    - apply Forall_forall; intros x Hx; apply H; right; exact Hx. }
  assert (T : List.map trim (entries (join (lit "; ") (e :: es))) =
              List.map trim (e :: es)).
  { rewrite E; simpl; f_equal.
    rewrite map_map; apply map_ext; intros x; reflexivity. }
  split; [exact T | apply loop_trim; exact T].
Qed.

Lemma cookie_string_is_read_back_witness :
  List.map trim
    (entries (join (lit "; ") [lit "ct0=abc123"; lit "auth_token=xyz789"])) =
  List.map trim [lit "ct0=abc123"; lit "auth_token=xyz789"] /\
  forEach (callback Strict_variant)
    (entries (join (lit "; ") [lit "ct0=abc123"; lit "auth_token=xyz789"]))
    ([], 0%N) =
  forEach (callback Strict_variant)
    [lit "ct0=abc123"; lit "auth_token=xyz789"] ([], 0%N).
Proof.
  apply (cookie_string_is_read_back Strict_variant (lit "ct0=abc123")
           [lit "auth_token=xyz789"] ([], 0%N)).
  intros x [<-|[<-|[]]]; unfold semicolon; simpl; intuition discriminate.
Defined.

(** ** What reaches the disk and the clipboard *)

(** X9.  A run saves at most one file, always named [config.json] and of
    type [application/json], and writes to the clipboard at most once;
    what it writes there is the text of the file it saved, so nothing is
    ever copied without being saved. *)
Theorem clipboard_copies_the_file (v : variant) (cookie : jsstring)
    (c : option clipboard) :
  (List.length (saved (run v (Browser cookie c))) <= 1)%nat /\
  (List.length (clipboard_texts (run v (Browser cookie c))) <= 1)%nat /\
  (forall f, In f (saved (run v (Browser cookie c))) ->
     file_name f = config_json /\ file_type f = application_json) /\
  (forall x, In x (clipboard_texts (run v (Browser cookie c))) ->
     saved (run v (Browser cookie c)) =
       [File config_json application_json x]).
Proof.
  rewrite saved_run, clipboard_run.
  destruct (bundle v cookie) as [b|]; simpl.
  - repeat split.
    + lia.
    + destruct c as [[[write|]]|]; simpl; lia.
    + destruct H as [<-|[]]; reflexivity.
    + destruct H as [<-|[]]; reflexivity.
    + intros x Hx; destruct c as [[[write|]]|]; simpl in Hx;
        try contradiction.
      destruct Hx as [<-|[]]; reflexivity.
  - repeat split; try lia; contradiction.
Qed.

(** ** The two scripts side by side *)

(** The tolerant loop follows the strict one on [ct0] and [csrf_token]. *)
Lemma loops_agree (xs : list jsstring) (t u : object) (n m : N)
    (tr : trace) (t' : object) (n' : N) :
  forEach (callback Strict_variant) xs (t, n) = (tr, Normal (t', n')) ->
  get ct0 u = get ct0 t -> get csrf_token u = get csrf_token t ->
  exists tr' u' m',
    forEach (callback Tolerant_variant) xs (u, m) = (tr', Normal (u', m')) /\
    get ct0 u' = get ct0 t' /\ get csrf_token u' = get csrf_token t'.
Proof.
  revert t u n m tr; induction xs as [|x xs IH]; intros t u n m tr H H1 H2.
  - simpl in H; inversion H; subst.
    exists [], u, m; repeat split; assumption.
  - rewrite forEach_cons in H; rewrite forEach_cons.
    unfold bind in H |- *.
    rewrite callback_step in H; rewrite callback_step.
    simpl captures_auth in H |- *; simpl andb in H |- *; cbv iota.
    destruct (strict_eq (cookie_name x) ct0) eqn:Hc.
    + destruct (cookie_value x) as [|s]; [discriminate|].
      destruct (forEach (callback Strict_variant) xs
                  (set csrf_token (Str s) (set ct0 (Str s) t), (n + 2)%N))
        as [t1 [[t2 n2]| |e]] eqn:E; try discriminate.
      inversion H; subst.
      destruct (IH _ (set csrf_token (Str s) (set ct0 (Str s) u))
                  _ (m + 2)%N _ E)
        as (tr' & u' & m' & -> & G1 & G2).
      * rewrite !(get_set_other ct0 csrf_token) by distinct_keys.
        rewrite !get_set_same; reflexivity.
      * rewrite !get_set_same; reflexivity.
      * eexists _, u', m'; repeat split; assumption.
    + assert (S : exists t0 n0 tr1,
                 forEach (callback Strict_variant) xs (t0, n0)
                   = (tr1, Normal (t', n')) /\
                 get ct0 t0 = get ct0 t /\
                 get csrf_token t0 = get csrf_token t).
      { destruct (strict_eq (cookie_name x) auth_token).
        - destruct (cookie_value x) as [|s]; [discriminate|].
          destruct (forEach (callback Strict_variant) xs
                      (set auth_token (Str s) t, (n + 1)%N))
            as [t1 [[t2 n2]| |e]] eqn:E; try discriminate.
          inversion H; subst.
          eexists _, _, _; split; [exact E|].
          rewrite !get_set_other by distinct_keys.
          split; reflexivity.
        - destruct (forEach (callback Strict_variant) xs (t, n))
            as [t1 [[t2 n2]| |e]] eqn:E; try discriminate.
          inversion H; subst.
          eexists _, _, _; split; [exact E|].
          split; reflexivity. }
      destruct S as (t0 & n0 & tr1 & E & G1 & G2).
      destruct (IH t0 u n0 m tr1 E) as (tr' & u' & m' & -> & K1 & K2);
        [congruence | congruence|].
      eexists _, u', m'; repeat split; assumption.
Qed.

(** X10.  Whenever the strict script produces a bundle, the tolerant one
    does too on the same cookies, with the same [ct0] value: the strict
    bundle without its [auth_token]. *)
Theorem strict_success_is_tolerant_success (cookie : jsstring) (b : object) :
  bundle Strict_variant cookie = Some b ->
  bundle Tolerant_variant cookie =
    Some [(ct0, get ct0 b); (csrf_token, get ct0 b);
          (bearer_token, Str BEARER)].
Proof.
  intros H.
  destruct (bundle_loop _ _ _ H) as (tr & t & n & Hl & -> & Hc & _).
  destruct (loops_agree _ _ [] _ 0%N _ _ _ Hl eq_refl eq_refl)
    as (tr' & u' & m' & Hl' & G1 & _).
  assert (Ht : truthy (get ct0 u') = true) by (rewrite G1; exact Hc).
  destruct (bundle_intro Tolerant_variant _ _ _ _ Hl' Ht) as [_ Hb];
    [discriminate|].
  destruct (bundle_layout _ _ _ Hb) as (x & _ & Hshape).
  rewrite Hb, Hshape; f_equal.
  assert (G : get ct0 (set bearer_token (Str BEARER) u') = get ct0 t)
    by (rewrite get_after_bearer by distinct_keys; exact G1).
  rewrite Hshape in G; simpl in G.
  rewrite get_after_bearer by distinct_keys.
  rewrite <- G; reflexivity.
Qed.

Lemma strict_success_is_tolerant_success_witness :
  bundle Tolerant_variant (lit "auth_token=xyz789; ct0=abc123") =
    Some [(ct0, Str (lit "abc123")); (csrf_token, Str (lit "abc123"));
          (bearer_token, Str BEARER)].
Proof.
  apply (strict_success_is_tolerant_success
           (lit "auth_token=xyz789; ct0=abc123")
           [(auth_token, Str (lit "xyz789")); (ct0, Str (lit "abc123"));
            (csrf_token, Str (lit "abc123")); (bearer_token, Str BEARER)]).
  reflexivity.
Defined.

(** ** The text of the file *)

Lemma quote_unit_plain (c : char16) : plain c = true -> quote_unit c = [c].
Proof.
  unfold plain; intros H.
  repeat (apply andb_true_iff in H; destruct H as [H ?]).
  apply negb_true_iff in H, H0, H1, H2, H3.
  assert (E : quote_unit c =
              if N.ltb c 32 || is_leading_surrogate c
                 || is_trailing_surrogate c
              then unicode_escape c else [c]).
  { apply N.eqb_neq in H2, H3. apply N.ltb_ge in H.
    destruct c as [|p]; [reflexivity|].
    do 7 (try (destruct p as [p|p|]); try reflexivity); try (exfalso; lia).
    all: try (exfalso; apply H2; reflexivity);
      try (exfalso; apply H3; reflexivity). }
  rewrite E, H, H0, H1; reflexivity.
Qed.

Lemma plain_not_leading (c : char16) :
  plain c = true -> is_leading_surrogate c = false.
Proof.
  unfold plain; intros H.
  repeat (apply andb_true_iff in H; destruct H as [H ?]).
  apply negb_true_iff; assumption.
Qed.

(** A string of plain code units is quoted as it is. *)
Lemma quote_units_plain (s : jsstring) :
  forallb plain s = true -> quote_units s = s.
Proof.
  induction s as [|c s IH]; [reflexivity|].
  simpl forallb; intros H; apply andb_true_iff in H; destruct H as [Hc Hs].
  change (quote_units (c :: s))
    with (if is_leading_surrogate c then
            match s with
            | d :: s'' =>
                if is_trailing_surrogate d then c :: d :: quote_units s''
                else quote_unit c ++ quote_units s
            | [] => quote_unit c
            end
          else quote_unit c ++ quote_units s).
  rewrite (plain_not_leading _ Hc), (quote_unit_plain _ Hc), (IH Hs).
  reflexivity.
Qed.

Lemma quoteJSONString_plain (s : jsstring) :
  forallb plain s = true -> quoteJSONString s = quoted s.
Proof.
  intros H; unfold quoteJSONString, quoted.
  rewrite (quote_units_plain _ H); reflexivity.
Qed.

(** X11.  When the [ct0] value is made of plain code units (no control
    character, double quote, backslash or surrogate, as every hexadecimal
    token is), the file the tolerant script saves is exactly the text of
    [tolerant_config]: the three properties on a line each, indented by
    two spaces, the value between double quotes as it stands. *)
Theorem tolerant_file_text (cookie : jsstring) (c : option clipboard)
    (b : object) (x : jsstring) :
  bundle Tolerant_variant cookie = Some b ->
  get ct0 b = Str x ->
  forallb plain x = true ->
  saved (run Tolerant_variant (Browser cookie c)) =
    [File config_json application_json (tolerant_config x)].
Proof.
  intros Hb Hg Hp.
  rewrite saved_run, Hb.
  destruct (bundle_layout _ _ _ Hb) as (x' & _ & ->).
  simpl in Hg; injection Hg as ->.
  unfold JSON_stringify, json_members.
  rewrite (quoteJSONString_plain _ Hp).
  change (quoteJSONString ct0) with (quoted ct0).
  change (quoteJSONString csrf_token) with (quoted csrf_token).
  change (quoteJSONString bearer_token) with (quoted bearer_token).
  replace (quoteJSONString BEARER) with (quoted BEARER) by reflexivity.
  unfold tolerant_config, join.
  repeat rewrite <- app_assoc.
  reflexivity.
Qed.

Lemma tolerant_file_text_witness :
  saved (run Tolerant_variant (no_clipboard (lit "ct0=abc123"))) =
    [File config_json application_json (tolerant_config (lit "abc123"))].
Proof.
  apply (tolerant_file_text (lit "ct0=abc123") None
           [(ct0, Str (lit "abc123")); (csrf_token, Str (lit "abc123"));
            (bearer_token, Str BEARER)] (lit "abc123"));
    reflexivity.
Defined.

(** ** What the console shows *)

(** Every event of the loop is the Found line of one cookie of a captured
    name, showing the preview of its value. *)
Lemma loop_trace_found (v : variant) (xs : list jsstring) (st : vars)
    (ev : event) :
  In ev (fst (forEach (callback v) xs st)) ->
  exists e x,
    In e xs /\ cookie_value e = Str x /\
    ((cookie_name e = Str ct0 /\ ev = Log (FoundCt0 (shown_of x))) \/
     (captures_auth v = true /\ cookie_name e = Str auth_token /\
      ev = Log (FoundAuthToken (shown_of x)))).
Proof.
  revert st; induction xs as [|x xs IH]; intros [t n]; [intros []|].
  rewrite forEach_cons, callback_step; unfold bind.
  assert (Step : forall st1, In ev (fst (forEach (callback v) xs st1)) ->
            exists e y,
              In e (x :: xs) /\ cookie_value e = Str y /\
              ((cookie_name e = Str ct0 /\ ev = Log (FoundCt0 (shown_of y))) \/
               (captures_auth v = true /\ cookie_name e = Str auth_token /\
                ev = Log (FoundAuthToken (shown_of y))))).
  { intros st1 H; destruct (IH st1 H) as (e & y & Hin & Hrest).
    exists e, y; split; [right; exact Hin | exact Hrest]. }
  destruct (strict_eq (cookie_name x) ct0) eqn:Hc.
  - apply strict_eq_true in Hc.
    destruct (cookie_value x) as [|s] eqn:Hv; [intros []|].
    destruct (forEach (callback v) xs
                (set csrf_token (Str s) (set ct0 (Str s) t), (n + 2)%N))
      as [t1 r1] eqn:E.
    cbn [fst]; intros H; apply in_app_or in H; destruct H as [[<-|[]]|H].
    + exists x, s; split; [left; reflexivity|]; split; [exact Hv|].
      left; split; [exact Hc | reflexivity].
    + eapply Step; rewrite E; exact H.
  - destruct (captures_auth v) eqn:Hcap; simpl andb; cbv iota;
      [destruct (strict_eq (cookie_name x) auth_token) eqn:Ha|].
    + apply strict_eq_true in Ha.
      destruct (cookie_value x) as [|s] eqn:Hv; [intros []|].
      destruct (forEach (callback v) xs
                  (set auth_token (Str s) t, (n + 1)%N)) as [t1 r1] eqn:E.
      cbn [fst]; intros H; apply in_app_or in H; destruct H as [[<-|[]]|H].
      * exists x, s; split; [left; reflexivity|]; split; [exact Hv|].
        right; repeat split; [exact Ha].
      * eapply Step; rewrite E; exact H.
    + destruct (forEach (callback v) xs (t, n)) as [t1 r1] eqn:E.
      cbn [fst app]; intros H; eapply Step; rewrite E; exact H.
    + destruct (forEach (callback v) xs (t, n)) as [t1 r1] eqn:E.
      cbn [fst app]; intros H; eapply Step; rewrite E; exact H.
Qed.

(** Where the events of a run come from. *)
Lemma run_events (v : variant) (cookie : jsstring) (c : option clipboard)
    (ev : event) :
  In ev (run v (Browser cookie c)) ->
  ev = Log Banner \/ ev = Log Rule \/ ev = Log (bearer_line v) \/
  (exists m, ev = Error m) \/
  In ev (fst (forEach (callback v) (entries cookie) ([], 0%N))) \/
  (exists tr b n,
     collect v cookie = (tr, Normal (b, n)) /\
     (In ev (delivery v n (JSON_stringify b)) \/
      In ev (clipboard_events c (JSON_stringify b)))).
Proof.
  rewrite run_unfold.
  intros [<-|[<-|H]]; [auto | auto|].
  right; right.
  assert (T : forall tr r, collect v cookie = (tr, r) -> In ev tr ->
            ev = Log (bearer_line v) \/ (exists m, ev = Error m) \/
            In ev (fst (forEach (callback v) (entries cookie) ([], 0%N)))).
  { intros tr r; rewrite collect_unfold.
    destruct (forEach (callback v) (entries cookie) ([], 0%N))
      as [tr0 [[t n0]| |e]]; cbv zeta; cbn [fst].
    - destruct (negb (truthy (get ct0 (set bearer_token (Str BEARER) t))));
        [|destruct (captures_auth v &&
                    negb (truthy (get auth_token
                                    (set bearer_token (Str BEARER) t))))];
        intros E; injection E as <- _; intros Hin;
        apply in_app_or in Hin; destruct Hin as [Hin|Hin]; auto;
        simpl in Hin; intuition eauto.
    - intros E; injection E as <- _; auto.
    - intros E; injection E as <- _; auto. }
  destruct (collect v cookie) as [tr [[b n]| |e]] eqn:E.
  - apply in_app_or in H; destruct H as [H|H].
    + destruct (T _ _ eq_refl H) as [K|[K|K]]; auto.
    + right; right; right; exists tr, b, n; split; [reflexivity|].
      apply in_app_or in H; exact H.
  - destruct (T _ _ eq_refl H) as [K|[K|K]]; auto.
  - apply in_app_or in H; destruct H as [H|H].
    + destruct (T _ _ eq_refl H) as [K|[K|K]]; auto.
    + right; left; simpl in H; intuition eauto.
Qed.

Lemma shown_of_length (x : jsstring) : (List.length (shown_of x) <= 23)%nat.
Proof.
  unfold shown_of, substring0; rewrite length_app.
  pose proof (firstn_le_length 20 x).
  change (List.length (lit "...")) with 3%nat; lia.
Qed.

(** X12.  A Found line of the console never shows a whole token: what it
    prints is the first 20 code units of the value of one [ct0] (or, in
    the strict script, [auth_token]) cookie of the string, followed by
    three dots, 23 code units at most. *)
Theorem found_lines_are_previews (v : variant) (cookie : jsstring)
    (c : option clipboard) (s : jsstring) :
  In (Log (FoundCt0 s)) (run v (Browser cookie c)) \/
  In (Log (FoundAuthToken s)) (run v (Browser cookie c)) ->
  (List.length s <= 23)%nat /\
  exists e x,
    In e (entries cookie) /\ cookie_value e = Str x /\
    s = substring0 20 x ++ lit "..." /\
    (cookie_name e = Str ct0 \/
     (v = Strict_variant /\ cookie_name e = Str auth_token)).
Proof.
  assert (K : forall ev,
            ev = Log (FoundCt0 s) \/ ev = Log (FoundAuthToken s) ->
            In ev (run v (Browser cookie c)) ->
            In ev (fst (forEach (callback v) (entries cookie) ([], 0%N)))).
  { intros ev Hev Hin.
    destruct (run_events _ _ _ _ Hin)
      as [->|[->|[->|[[m ->]|[H|(tr & b & n & _ & [H|H])]]]]];
      try (destruct Hev; discriminate);
      try (destruct v; destruct Hev; discriminate); [exact H | |].
    - exfalso; unfold delivery, announce in H.
      destruct v; simpl in H; destruct Hev; subst ev;
        intuition discriminate.
    - exfalso; destruct c as [[[write|]]|]; simpl in H;
        try destruct (write (JSON_stringify b));
        destruct Hev; subst ev; intuition discriminate. }
  intros H.
  assert (L : exists ev,
            (ev = Log (FoundCt0 s) \/ ev = Log (FoundAuthToken s)) /\
            In ev (fst (forEach (callback v) (entries cookie) ([], 0%N)))).
  { destruct H as [H|H]; eexists; (split; [|eapply K; [|exact H]]); auto. }
  destruct L as (ev & Hev & Hin).
  destruct (loop_trace_found _ _ _ _ Hin)
    as (e & x & He & Hv & [[Hn ->]|[Hcap [Hn ->]]]).
  - destruct Hev as [Hev|Hev]; [|discriminate].
    injection Hev as <-.
    split; [apply shown_of_length|].
    exists e, x; repeat split; auto.
  - destruct Hev as [Hev|Hev]; [discriminate|].
    injection Hev as <-.
    split; [apply shown_of_length|].
    exists e, x; repeat split; auto.
    right; split; [destruct v; [reflexivity | discriminate] | exact Hn].
Qed.

Lemma found_lines_are_previews_witness :
  (List.length (lit "0123456789abcdefghij...") <= 23)%nat /\
  exists e x,
    In e (entries (lit "ct0=0123456789abcdefghijklmnopqrstuvwxyz")) /\
    cookie_value e = Str x /\
    lit "0123456789abcdefghij..." = substring0 20 x ++ lit "..." /\
    (cookie_name e = Str ct0 \/
     (Tolerant_variant = Strict_variant /\ cookie_name e = Str auth_token)).
Proof.
  apply (found_lines_are_previews Tolerant_variant
           (lit "ct0=0123456789abcdefghijklmnopqrstuvwxyz") None).
  left; right; right; left; reflexivity.
Defined.

(** ** The number of tokens the script announces *)

Lemma count_named_cons (name x : jsstring) (xs : list jsstring) :
  count_named name (x :: xs) =
  ((if named name x then 1 else 0) + count_named name xs)%N.
Proof.
  unfold count_named; cbn [filter]; destruct (named name x);
    cbn [List.length]; [rewrite Nat2N.inj_succ|]; lia.
Qed.

(** [foundTokens] after the loop. *)
Lemma loop_count (v : variant) (xs : list jsstring) (t : object) (n : N)
    (tr : trace) (t' : object) (n' : N) :
  forEach (callback v) xs (t, n) = (tr, Normal (t', n')) ->
  n' = (n + 2 * count_named ct0 xs
        + (if captures_auth v then count_named auth_token xs else 0))%N.
Proof.
  revert t n tr; induction xs as [|x xs IH]; intros t n tr H.
  - simpl in H; inversion H; subst.
    unfold count_named; simpl; destruct (captures_auth v); lia.
  - rewrite forEach_cons, callback_step in H; unfold bind in H.
    rewrite !count_named_cons; unfold named.
    destruct (strict_eq (cookie_name x) ct0) eqn:Hc.
    + assert (Ha : strict_eq (cookie_name x) auth_token = false).
      { apply strict_eq_true in Hc; rewrite Hc; reflexivity. }
      rewrite Ha.
      destruct (cookie_value x) as [|s]; [discriminate|].
      destruct (forEach (callback v) xs
                  (set csrf_token (Str s) (set ct0 (Str s) t), (n + 2)%N))
        as [t1 [[t2 n2]| |e]] eqn:E; try discriminate.
      injection H as _ <- <-.
      rewrite (IH _ _ _ E); destruct (captures_auth v); lia.
    + destruct (captures_auth v) eqn:Hcap; simpl andb in H; cbv iota in H;
        [destruct (strict_eq (cookie_name x) auth_token) eqn:Ha|].
      * destruct (cookie_value x) as [|s]; [discriminate|].
        destruct (forEach (callback v) xs
                    (set auth_token (Str s) t, (n + 1)%N))
          as [t1 [[t2 n2]| |e]] eqn:E; try discriminate.
        injection H as _ <- <-.
        rewrite (IH _ _ _ E); lia.
      * destruct (forEach (callback v) xs (t, n))
          as [t1 [[t2 n2]| |e]] eqn:E; try discriminate.
        injection H as _ <- <-.
        rewrite (IH _ _ _ E); lia.
      * destruct (forEach (callback v) xs (t, n))
          as [t1 [[t2 n2]| |e]] eqn:E; try discriminate.
        injection H as _ <- <-.
        rewrite (IH _ _ _ E); lia.
Qed.

Lemma collect_count (v : variant) (cookie : jsstring) (tr : trace)
    (b : object) (n : N) :
  collect v cookie = (tr, Normal (b, n)) -> n = reported_count v cookie.
Proof.
  rewrite collect_unfold.
  destruct (forEach (callback v) (entries cookie) ([], 0%N))
    as [tr0 [[t n0]| |e]] eqn:Hl; try discriminate.
  cbv zeta.
  destruct (negb (truthy (get ct0 (set bearer_token (Str BEARER) t))));
    [discriminate|].
  destruct (captures_auth v &&
            negb (truthy (get auth_token (set bearer_token (Str BEARER) t))));
    [discriminate|].
  intros H; injection H as _ _ <-.
  rewrite (loop_count _ _ _ _ _ _ _ Hl); unfold reported_count; lia.
Qed.

(** X13.  The number in the line "Successfully extracted N tokens" is
    printed exactly when a bundle is produced, and it counts assignments,
    not properties: two for every [ct0] cookie, one for every captured
    [auth_token] cookie, one for the bearer token; a cookie that occurs
    twice is counted twice. *)
Theorem announced_count (v : variant) (cookie : jsstring)
    (c : option clipboard) (n : N) :
  In (Log (Extracted n)) (run v (Browser cookie c)) <->
  (bundle v cookie <> None /\ n = reported_count v cookie).
Proof.
  split.
  - intros Hin.
    destruct (run_events _ _ _ _ Hin)
      as [H|[H|[H|[[m H]|[H|(tr & b & n0 & E & [H|H])]]]]];
      try discriminate.
    + destruct v; discriminate.
    + exfalso.
      destruct (loop_trace_found _ _ _ _ H)
        as (e & x & _ & _ & [[_ K]|[_ [_ K]]]); discriminate.
    + split; [unfold bundle; rewrite E; discriminate|].
      rewrite <- (collect_count _ _ _ _ _ E).
      unfold delivery, announce in H.
      destruct v; simpl in H;
        destruct H as [H|H]; try (injection H as ->; reflexivity);
        exfalso; intuition discriminate.
    + exfalso; destruct c as [[[write|]]|]; simpl in H;
        try destruct (write (JSON_stringify b)); intuition discriminate.
  - intros [Hb ->]; rewrite run_unfold.
    unfold bundle in Hb.
    destruct (collect v cookie) as [tr [[b n0]| |e]] eqn:E;
      try (exfalso; apply Hb; reflexivity).
    rewrite <- (collect_count _ _ _ _ _ E).
    right; right; apply in_or_app; right.
    apply in_or_app; left.
    unfold delivery, announce; left; reflexivity.
Qed.

(** ** Every run, at a glance *)

(** X14.  A run ends in exactly one of two ways.  Either the bundle is
    produced: the file is saved and no error is printed.  Or it is not:
    nothing is saved, nothing is copied, and one of the three error blocks
    is printed (missing [ct0]; missing [auth_token], strict script only;
    the troubleshooting block of the [catch]).  No run fails in silence
    and none prints an error after it saved. *)
Theorem run_outcomes (v : variant) (cookie : jsstring)
    (c : option clipboard) :
  (exists b,
     bundle v cookie = Some b /\
     saved (run v (Browser cookie c)) =
       [File config_json application_json (JSON_stringify b)] /\
     errors (run v (Browser cookie c)) = []) \/
  (bundle v cookie = None /\
   saved (run v (Browser cookie c)) = [] /\
   clipboard_texts (run v (Browser cookie c)) = [] /\
   (errors (run v (Browser cookie c)) = missing_ct0_errors \/
    (v = Strict_variant /\
     errors (run v (Browser cookie c)) = missing_auth_token_errors) \/
    errors (run v (Browser cookie c)) = extraction_failed_errors)).
Proof.
  destruct (bundle v cookie) as [b|] eqn:Hb.
  - left; exists b; split; [reflexivity|].
    split; [rewrite saved_run, Hb; reflexivity|].
    exact (errors_run_some _ _ c _ Hb).
  - right; split; [reflexivity|].
    rewrite saved_run, clipboard_run, Hb.
    split; [reflexivity|]; split; [reflexivity|].
    exact (errors_run_none _ _ c Hb).
Qed.

(** X15.  An entry [name=x] whose name is not exactly [ct0] (nor, in the
    strict script, [auth_token]) is skipped: the callback changes nothing
    and prints nothing.  Names are compared as they stand, so [CT0=x] and
    [ct0 =x], with a blank before the sign, are skipped too. *)
Theorem foreign_entry_is_skipped (v : variant) (e name x : jsstring)
    (st : vars) :
  is_entry name x e -> ~ In equals_sign name ->
  name <> ct0 -> (captures_auth v = true -> name <> auth_token) ->
  callback v e st = ([], Normal st).
Proof.
  intros He Hn H1 H2.
  apply callback_irrelevant.
  unfold relevant, named; rewrite (is_entry_name _ _ _ He Hn); simpl.
  rewrite (str_eqb_neq _ _ H1); simpl.
  destruct (captures_auth v); [|reflexivity].
  rewrite (str_eqb_neq _ _ (H2 eq_refl)); reflexivity.
Qed.

Lemma foreign_entry_is_skipped_witness :
  callback Strict_variant (lit " ct0 =abc123") ([], 0%N) =
    ([], Normal ([], 0%N)).
Proof.
  apply (foreign_entry_is_skipped Strict_variant (lit " ct0 =abc123")
           (lit "ct0 ") (lit "abc123")).
  - reflexivity.
  - unfold equals_sign; simpl; intuition discriminate.
  - discriminate.
  - intros _; discriminate.
Defined.
